(** * CantoMeet Notes: the in-memory task pipeline of the frontend

    A shallow embedding of [frontend/src/services/api/tasks.ts] (the
    [tasksApi] facade in mock mode and the [mockDataService] it delegates
    to) together with the [ProcessingTask] and [Meeting] interfaces of
    [frontend/src/types].

    JavaScript objects are mutable and shared by reference: the array
    [mockTasks] holds references to task objects, [createTask] returns the
    very object it pushed, and the [setTimeout] callbacks mutate whatever
    object [find] hands them.  The embedding therefore keeps an object
    store ([heap], indexed by reference) next to the array of references,
    a list of pending timers, and a millisecond clock standing for
    [Date.now()]. *)

From Stdlib Require Import Ascii.
From stdpp Require Import base numbers list strings pretty.

Open Scope Z_scope.

(** ** Data model ([frontend/src/types]) *)

(** [ProcessingTask['status']] *)
Inductive TaskStatus : Set :=
  | queued
  | processing
  | review_ready
  | completed
  | failed.

#[global] Instance TaskStatus_eq_dec : EqDecision TaskStatus.
Proof. solve_decision. Defined.

Module ProcessingTask.
Record t : Set := mk {
  id : string;
  workspaceId : string;
  filename : string;
  fileSize : Z;
  status : TaskStatus;
  progress : Z;
  logs : list string;
  startTime : string
}.
End ProcessingTask.

Inductive Sentiment : Set :=
  | neutral
  | positive
  | negative
  | concerned.

Module Speaker.
Record t : Set := mk {
  id : string;
  name : string;
  role : string;
  avatar : string
}.
End Speaker.

Module TranscriptSegment.
Record t : Set := mk {
  id : string;
  speakerId : string;
  timestamp : string;
  text : string;
  sentiment : option Sentiment
}.
End TranscriptSegment.

Inductive ActionStatus : Set :=
  | pending
  | in_progress
  | action_completed.

Inductive Priority : Set :=
  | high
  | medium
  | low.

Module ActionItem.
Record t : Set := mk {
  id : string;
  description : string;
  owner : string;
  dueDate : string;
  status : ActionStatus;
  priority : option Priority;
  relatedSegmentId : string;
  reminder : option string
}.
End ActionItem.

Module KeyDecision.
Record t : Set := mk {
  id : string;
  description : string;
  relatedSegmentId : string
}.
End KeyDecision.

Module MeetingSummary.
Record t : Set := mk {
  executiveSummary : option string;
  detailedMinutes : option string;
  decisions : option (list KeyDecision.t);
  actionItems : option (list ActionItem.t)
}.
End MeetingSummary.

(** [Meeting['status']] *)
Inductive MeetingStatus : Set :=
  | meeting_uploaded
  | meeting_transcribing
  | meeting_summarizing
  | meeting_completed
  | meeting_failed
  | meeting_scheduled.

Module Meeting.
Record t : Set := mk {
  id : string;
  workspaceId : string;
  title : string;
  date : string;
  duration : string;
  participants : option (list Speaker.t);
  tags : option (list string);
  transcript : option (list TranscriptSegment.t);
  summary : option MeetingSummary.t;
  hubSpotSynced : option bool;
  status : MeetingStatus;
  template : option string
}.
End Meeting.

(** The [data] argument of [finalizeTask]. *)
Module FinalizeData.
Record t : Set := mk {
  title : string;
  template : string;
  tags : list string
}.
End FinalizeData.

(** ** Timers

    [createTask] registers three [setTimeout] callbacks.  Each closure
    captures [newTask.id] and nothing else, so a callback is its kind and
    the captured id. *)
Inductive Callback : Set :=
  | StartTranscription (taskId : string)
  | HalfTranscribed (taskId : string)
  | ReadyForReview (taskId : string).

Record Timer : Set := mkTimer {
  due : Z;
  callback : Callback
}.

(** ** Program state *)
Record State : Set := mkState {
  heap : list ProcessingTask.t;      (* every task object allocated so far *)
  mockTasks : list nat;              (* [let mockTasks]: references into [heap] *)
  mockMeetings : list Meeting.t;     (* [let mockMeetings] *)
  timers : list Timer;               (* pending [setTimeout]s, in registration order *)
  clock : Z                          (* [Date.now()] *)
}.

(** What a call leaves behind: a returned value with the new state, or a
    thrown [Error] with its message. *)
Inductive Outcome (A : Type) : Type :=
  | Returned (a : A) (s : State)
  | Thrown (message : string) (s : State).
Arguments Returned {A} a s.
Arguments Thrown {A} message s.

(** ** Mock data *)

Definition MOCK_SPEAKERS : list Speaker.t :=
  [ Speaker.mk "u1" "Christina Lau" "Product Lead" "https://picsum.photos/id/1012/200/200";
    Speaker.mk "alex" "Alex Wong" "CTO" "https://picsum.photos/id/1025/200/200";
    Speaker.mk "sarah" "Sarah Ye" "Product Manager" "https://picsum.photos/id/1011/200/200" ].

(** [mockTasks.find((t) => t.id === id)]: the first reference of the array
    whose object carries the id, with the object it points to. *)
Fixpoint find_task (h : list ProcessingTask.t) (i : string) (refs : list nat)
    : option (nat * ProcessingTask.t) :=
  match refs with
  | [] => None
  | r :: refs' =>
      match h !! r with
      | Some t =>
          if decide (ProcessingTask.id t = i) then Some (r, t)
          else find_task h i refs'
      | None => find_task h i refs'
      end
  end.

(** The predicate of [mockTasks.filter((t) => t.id !== taskId)]. *)
Definition id_differs (h : list ProcessingTask.t) (i : string) (r : nat) : Prop :=
  ProcessingTask.id <$> h !! r ≠ Some i.

(** The predicate of [mockTasks.filter((t) => t.workspaceId === workspaceId)]. *)
Definition in_workspace (h : list ProcessingTask.t) (w : string) (r : nat) : Prop :=
  ProcessingTask.workspaceId <$> h !! r = Some w.

#[global] Instance id_differs_dec h i r : Decision (id_differs h i r).
Proof. unfold id_differs. apply _. Defined.

#[global] Instance in_workspace_dec h w r : Decision (in_workspace h w r).
Proof. unfold in_workspace. apply _. Defined.

(** Field assignments on a task object. *)
Definition set_status (v : TaskStatus) (t : ProcessingTask.t) : ProcessingTask.t :=
  ProcessingTask.mk (ProcessingTask.id t) (ProcessingTask.workspaceId t)
    (ProcessingTask.filename t) (ProcessingTask.fileSize t) v
    (ProcessingTask.progress t) (ProcessingTask.logs t) (ProcessingTask.startTime t).

Definition set_progress (v : Z) (t : ProcessingTask.t) : ProcessingTask.t :=
  ProcessingTask.mk (ProcessingTask.id t) (ProcessingTask.workspaceId t)
    (ProcessingTask.filename t) (ProcessingTask.fileSize t) (ProcessingTask.status t)
    v (ProcessingTask.logs t) (ProcessingTask.startTime t).

(** [task.logs.push(line)] *)
Definition push_log (line : string) (t : ProcessingTask.t) : ProcessingTask.t :=
  ProcessingTask.mk (ProcessingTask.id t) (ProcessingTask.workspaceId t)
    (ProcessingTask.filename t) (ProcessingTask.fileSize t) (ProcessingTask.status t)
    (ProcessingTask.progress t) (ProcessingTask.logs t ++ [line]) (ProcessingTask.startTime t).

(** ** The job state machine of the specification

    The six job states and the directed edges of the specification's
    state-machine table, written from its words; the code's
    [TaskStatus] is compared with it below. *)
Inductive JobState : Set :=
  | QUEUED
  | TRANSCRIBING
  | SUMMARIZING
  | REVIEW_READY
  | COMPLETED
  | FAILED.

Definition terminal (st : JobState) : bool :=
  match st with
  | COMPLETED | FAILED => true
  | _ => false
  end.

Definition spec_edge (from to : JobState) : bool :=
  match from, to with
  | QUEUED, TRANSCRIBING => true
  | TRANSCRIBING, SUMMARIZING => true
  | SUMMARIZING, REVIEW_READY => true
  | REVIEW_READY, COMPLETED => true
  | _, FAILED => negb (terminal from)
  | _, _ => false
  end.

(** A log entry "recording that the job was queued", as the
    specification words the entry a new job starts with: the entry
    speaks of queueing. *)
Definition mentions_queued (entry : string) : bool :=
  bool_decide (is_Some (String.index 0 "queued" entry))
  || bool_decide (is_Some (String.index 0 "Queued" entry))
  || bool_decide (is_Some (String.index 0 "QUEUED" entry)).

(** ** Callbacks: what they aim at and when

    [createTask] passes the delays 2000, 8000 and 15000 to [setTimeout];
    the callbacks are numbered in that order. *)
Definition target (cb : Callback) : string :=
  match cb with
  | StartTranscription i | HalfTranscribed i | ReadyForReview i => i
  end.

Definition kind (cb : Callback) : nat :=
  match cb with
  | StartTranscription _ => 1
  | HalfTranscribed _ => 2
  | ReadyForReview _ => 3
  end.

Definition delay (cb : Callback) : Z :=
  match cb with
  | StartTranscription _ => 2000
  | HalfTranscribed _ => 8000
  | ReadyForReview _ => 15000
  end.

(** The four points of the simulated progression: as created, and after
    each of the three callbacks. *)
Definition staged (j : nat) (t : ProcessingTask.t) : Prop :=
  match j with
  | 0%nat => ProcessingTask.status t = queued /\ ProcessingTask.progress t = 0
  | 1%nat => ProcessingTask.status t = processing /\ ProcessingTask.progress t = 10
  | 2%nat => ProcessingTask.status t = processing /\ ProcessingTask.progress t = 50
  | 3%nat => ProcessingTask.status t = review_ready /\ ProcessingTask.progress t = 100
  | _ => False
  end.

(** A host whose clock renderings are the millisecond count itself; used
    where the development is run on concrete inputs. *)
Definition plain_time (ms : Z) : string := pretty ms.

(** ** The tasks page and the sidebar

    What [TasksPage] and [Sidebar] compute from the tasks that
    [tasksApi.list] hands them, and the tag editor of the review form. *)

(** The test [TasksPage] repeats wherever it chooses between the log view
    and the review form. *)
Definition ready_for_review (t : ProcessingTask.t) : bool :=
  bool_decide (ProcessingTask.status t = review_ready)
  || (bool_decide (ProcessingTask.status t = completed)
      && bool_decide (ProcessingTask.progress t = 100))
  || (bool_decide (ProcessingTask.status t = processing)
      && bool_decide (ProcessingTask.progress t = 100)).

(** The argument of [query.state.data?.some(...)] in [refetchInterval]. *)
Definition still_processing (t : ProcessingTask.t) : bool :=
  bool_decide (ProcessingTask.status t = queued)
  || bool_decide (ProcessingTask.status t = processing)
  || (bool_decide (ProcessingTask.progress t = 100)
      && bool_decide (ProcessingTask.status t <> review_ready)
      && bool_decide (ProcessingTask.status t <> completed)
      && bool_decide (ProcessingTask.status t <> failed)).

(** [refetchInterval]: 3000, or [false] (here [None]); the data of the
    query is [undefined] until the first fetch has come back. *)
Definition refetchInterval (data : option (list ProcessingTask.t)) : option Z :=
  match data with
  | Some tasks => if existsb still_processing tasks then Some 3000 else None
  | None => None
  end.

(** [taskCount] of the sidebar. *)
Definition taskCount (tasks : list ProcessingTask.t) : nat :=
  length (filter (fun t => ProcessingTask.status t = processing \/
                           ProcessingTask.status t = queued) tasks).

(** The text of the status line of a task card: five [{cond && 'text'}]
    children side by side, each rendered only when its condition holds. *)
Definition status_label (t : ProcessingTask.t) : string :=
  (if decide (ProcessingTask.status t = queued) then "Queued..." else "") +:+
  (if decide (ProcessingTask.status t = processing /\ ProcessingTask.progress t < 100)
   then "Processing..." else "") +:+
  (if ready_for_review t then "Ready for Review" else "") +:+
  (if decide (ProcessingTask.status t = completed /\ ProcessingTask.progress t < 100)
   then "Completed" else "") +:+
  (if decide (ProcessingTask.status t = failed) then "Failed" else "").

(** The two pieces of React state behind the tag editor. *)
Record ReviewForm : Set := mkReviewForm {
  reviewTags : list string;
  newTag : string
}.

Definition addTag (form : ReviewForm) : ReviewForm :=
  if decide (newTag form <> "" /\ newTag form ∉ reviewTags form)
  then mkReviewForm (reviewTags form ++ [newTag form]) ""
  else form.

Definition removeTag (tToRemove : string) (form : ReviewForm) : ReviewForm :=
  mkReviewForm (filter (fun t => t <> tToRemove) (reviewTags form)) (newTag form).

(** What the user can do to the tag editor. *)
Inductive TagEvent : Set :=
  | TypeNewTag (value : string)
  | PressAdd
  | PressRemove (t : string).

Definition tag_step (e : TagEvent) (form : ReviewForm) : ReviewForm :=
  match e with
  | TypeNewTag value => mkReviewForm (reviewTags form) value
  | PressAdd => addTag form
  | PressRemove t => removeTag t form
  end.

Definition tag_run (es : list TagEvent) (form : ReviewForm) : ReviewForm :=
  foldl (fun form e => tag_step e form) form es.

(** The title [handleTaskClick] proposes:
    [filename.replace(/\.[^/.]+$/, '').replace(/_/g, ' ')].
    The three characters the expressions name are ASCII, so working on
    the bytes of the name gives the bytes of the result. *)

(** [[^/.]] *)
Definition ext_char (c : ascii) : bool :=
  negb (bool_decide (c = "/"%char)) && negb (bool_decide (c = "."%char)).

Fixpoint all_ext_chars (s : string) : bool :=
  match s with
  | EmptyString => true
  | String c s' => ext_char c && all_ext_chars s'
  end.

(** Does [/\.[^/.]+$/] match with its dot on the first character? *)
Definition extension_here (s : string) : bool :=
  match s with
  | String c rest =>
      bool_decide (c = "."%char) && negb (bool_decide (rest = "")) && all_ext_chars rest
  | EmptyString => false
  end.

(** The first match, scanning from the left, is cut off. *)
Fixpoint strip_extension (s : string) : string :=
  if extension_here s then ""
  else match s with
       | EmptyString => ""
       | String c s' => String c (strip_extension s')
       end.

Fixpoint underscores_to_spaces (s : string) : string :=
  match s with
  | EmptyString => ""
  | String c s' =>
      String (if decide (c = "_"%char) then " "%char else c) (underscores_to_spaces s')
  end.

Definition review_title (filename : string) : string :=
  underscores_to_spaces (strip_extension filename).

(** [UploadMeetingResponse] of [frontend/src/types/api.ts]. *)
Module UploadMeetingResponse.
Record t : Set := mk {
  meetingId : string;
  taskId : string;
  message : string
}.
End UploadMeetingResponse.

(** A clock reading and a [data] argument for such runs. *)
Definition sample_now : Z := 1730505600000.

Definition sample_data : FinalizeData.t := FinalizeData.mk "Sync" "General" [].

(** ** The mock data service

    [Date.prototype.toLocaleTimeString] and [toISOString] depend on the
    host's locale and time zone; they are parameters of the development.
    The strings they produce only ever end up inside log lines and date
    fields. *)
Section MockDataService.

Variable toLocaleTimeString : Z -> string.
Variable toISOString : Z -> string.

(** [`[${new Date().toLocaleTimeString()}] ${text}`] *)
Definition log_line (now : Z) (text : string) : string :=
  "[" +:+ toLocaleTimeString now +:+ "] " +:+ text.

(** The module-level initialisers, evaluated when the module is loaded
    at time [now]. *)
Definition initialTasks (now : Z) : list ProcessingTask.t :=
  [ ProcessingTask.mk "task_1" "ws_1" "Q3_Product_Review_2024.m4a"
      (45 * 1024 * 1024) review_ready 100
      [ "[10:30:15] File uploaded successfully";
        "[10:30:20] Starting transcription...";
        "[10:35:45] Transcription 50% complete";
        "[10:41:20] Transcription complete";
        "[10:41:25] Starting summarization...";
        "[10:43:10] Summarization complete";
        "[10:43:15] Ready for review" ]
      (toISOString (now - 15 * 60 * 1000));
    ProcessingTask.mk "task_2" "ws_1" "Weekly_Sync_Meeting.m4a"
      (28 * 1024 * 1024) processing 65
      [ "[14:20:10] File uploaded successfully";
        "[14:20:15] Starting transcription...";
        "[14:25:30] Transcription 30% complete";
        "[14:30:45] Transcription 60% complete";
        "[14:32:20] Transcription 65% complete..." ]
      (toISOString (now - 12 * 60 * 1000)) ].

Definition initialMeetings : list Meeting.t :=
  [ Meeting.mk "m_20241024_q3_review" "ws_1"
      "Q3 Product Roadmap Review & Tech Infra"
      "2024-10-24T10:30:00" "45 mins"
      (Some MOCK_SPEAKERS)
      (Some ["Strategic"; "Engineering"; "Budget"])
      (Some
        [ TranscriptSegment.mk "seg_1" "sarah" "00:05"
            "Hello everyone, let's start. 今日主要過一次 Q3 嘅 Roadmap 同埋 review 返上個禮拜個 usage spike 嘅問題。"
            (Some neutral);
          TranscriptSegment.mk "seg_2" "alex" "00:24"
            "Right. 关于 usage spike 嗰度，Backend check 過 logs，發現係 Monday morning 9點幾嗰阵，Concurrent users 突然升咗 3 倍。我哋個 AWS RDS instance 顶唔顺，latency 飙到去 2000ms。"
            (Some concerned);
          TranscriptSegment.mk "seg_3" "u1" "00:45"
            "Okay, 咁我哋有咩 solution？係咪要 scale up 個 database？"
            (Some neutral);
          TranscriptSegment.mk "seg_4" "alex" "01:02"
            "我哋有兩個 options：一個係 Read Replicas，另一個係 Sharding。Read Replicas 比較簡單，可以 immediate fix，但係 Sharding 就 long-term solution。"
            (Some neutral) ])
      (Some (MeetingSummary.mk
        (Some "The team discussed the Q3 product roadmap and addressed a recent system latency spike. The spike was caused by a 3x increase in concurrent users on Monday morning, pushing AWS RDS latency to 2000ms. Two solutions were proposed: Read Replicas for immediate relief, and Sharding for long-term scalability.")
        None
        (Some
          [ KeyDecision.mk "dec_1"
              "Implement AWS RDS Read Replicas as immediate solution for latency issues"
              "seg_4";
            KeyDecision.mk "dec_2"
              "Keep Smart Search feature release on schedule for Q3"
              "seg_1" ])
        (Some
          [ ActionItem.mk "act_1"
              "Set up AWS RDS Read Replicas by next Wednesday"
              "Alex Wong" "2024-10-30" in_progress (Some high) "seg_4" None;
            ActionItem.mk "act_2"
              "Reply to customer support inquiry about feature request"
              "Sarah Ye" "2024-10-26" pending (Some medium) "seg_1" None ])))
      (Some false)
      meeting_completed
      (Some "Product Review") ].

Definition initial (now : Z) : State :=
  {| heap := initialTasks now;
     mockTasks := [0%nat; 1%nat];
     mockMeetings := initialMeetings;
     timers := [];
     clock := now |}.

(** *** Tasks *)

Definition getTasks (workspaceId : string) (s : State) : list nat :=
  filter (in_workspace (heap s) workspaceId) (mockTasks s).

(** [`task_${Date.now()}`] *)
Definition task_id (now : Z) : string := "task_" +:+ pretty now.

Definition createTask (workspaceId filename : string) (fileSize : Z) (s : State)
    : nat * State :=
  let now := clock s in
  let newTask :=
    ProcessingTask.mk (task_id now) workspaceId filename fileSize queued 0
      [log_line now "File uploaded successfully"] (toISOString now) in
  let ref := length (heap s) in
  (ref,
   {| heap := heap s ++ [newTask];
      mockTasks := mockTasks s ++ [ref];
      mockMeetings := mockMeetings s;
      timers := timers s ++
        [ mkTimer (now + 2000) (StartTranscription (ProcessingTask.id newTask));
          mkTimer (now + 8000) (HalfTranscribed (ProcessingTask.id newTask));
          mkTimer (now + 15000) (ReadyForReview (ProcessingTask.id newTask)) ];
      clock := now |}).

Definition getTask (id : string) (s : State) : option (nat * ProcessingTask.t) :=
  find_task (heap s) id (mockTasks s).

Definition finalizeTask (taskId : string) (data : FinalizeData.t) (s : State)
    : Outcome string :=
  match find_task (heap s) taskId (mockTasks s) with
  | None => Thrown "Task not found" s
  | Some (_, task) =>
      let now := clock s in
      let newMeeting :=
        Meeting.mk ("m_" +:+ pretty now)
          (ProcessingTask.workspaceId task)
          (FinalizeData.title data)
          (toISOString now)
          "45 mins"
          (Some MOCK_SPEAKERS)
          (Some (FinalizeData.tags data))
          (Some
            [ TranscriptSegment.mk "seg_1" "u1" "00:00"
                "This is a sample transcript generated from the uploaded audio file."
                (Some neutral) ])
          (Some (MeetingSummary.mk
            (Some ("Meeting summary for " +:+ FinalizeData.title data))
            None (Some []) (Some [])))
          (Some false)
          meeting_completed
          (Some (FinalizeData.template data)) in
      Returned (Meeting.id newMeeting)
        {| heap := heap s;
           mockTasks := filter (id_differs (heap s) taskId) (mockTasks s);
           mockMeetings := mockMeetings s ++ [newMeeting];
           timers := timers s;
           clock := now |}
  end.

(** *** Meetings *)

Definition getMeetings (workspaceId : string) (s : State) : list Meeting.t :=
  filter (fun m => Meeting.workspaceId m = workspaceId) (mockMeetings s).

Definition getMeeting (id : string) (s : State) : option Meeting.t :=
  snd <$> list_find (fun m => Meeting.id m = id) (mockMeetings s).

(** *** [tasksApi] with [ENABLE_MOCK_API] set

    The facade awaits a fixed delay and then delegates; what it does
    once the delay is over is modelled here. *)

Definition tasksApi_list (workspaceId : string) (s : State) : list nat :=
  getTasks workspaceId s.

Definition tasksApi_get (id : string) (s : State) : Outcome (nat * ProcessingTask.t) :=
  match getTask id s with
  | None => Thrown "Task not found" s
  | Some task => Returned task s
  end.

Definition tasksApi_finalize (taskId : string) (data : FinalizeData.t) (s : State)
    : Outcome string :=
  finalizeTask taskId data s.

(** *** The simulated processing progression *)

Definition update_task (h : list ProcessingTask.t) (refs : list nat) (i : string)
    (f : ProcessingTask.t -> ProcessingTask.t) : list ProcessingTask.t :=
  match find_task h i refs with
  | Some (r, _) => alter f r h
  | None => h
  end.

(** The bodies of the three callbacks, run at time [now]. *)
Definition callback_body (now : Z) (cb : Callback) : string * (ProcessingTask.t -> ProcessingTask.t) :=
  match cb with
  | StartTranscription i =>
      (i, fun task =>
        push_log (log_line now "Starting transcription...")
          (set_progress 10 (set_status processing task)))
  | HalfTranscribed i =>
      (i, fun task =>
        push_log (log_line now "Transcription 50% complete")
          (set_progress 50 task))
  | ReadyForReview i =>
      (i, fun task =>
        push_log (log_line now "Ready for review")
          (push_log (log_line now "Summarization complete")
            (push_log (log_line now "Starting summarization...")
              (push_log (log_line now "Transcription complete")
                (set_status review_ready (set_progress 100 task))))))
  end.

Definition run_callback (cb : Callback) (s : State) : State :=
  let '(i, f) := callback_body (clock s) cb in
  {| heap := update_task (heap s) (mockTasks s) i f;
     mockTasks := mockTasks s;
     mockMeetings := mockMeetings s;
     timers := timers s;
     clock := clock s |}.

(** One order in which a host may run timers: the one due first, the one
    registered first among those due at the same instant.  Returns that
    timer with the timers that stay pending.  Nothing in the source asks
    for this order; a host is free to pick otherwise ([RunTimerAt]
    below). *)
Fixpoint pop_earliest (ts : list Timer) : option (Timer * list Timer) :=
  match ts with
  | [] => None
  | t :: ts' =>
      match pop_earliest ts' with
      | None => Some (t, [])
      | Some (u, rest) =>
          if decide (due t <= due u) then Some (t, ts')
          else Some (u, t :: rest)
      end
  end.

(** What can happen to the module between two observations: time passes,
    the host runs a timer, a client calls in, or the clock is set.  The
    service functions do not await, so a call runs to its end at one
    clock reading; two calls may well fall into the same millisecond.

    A timer runs no earlier than it is due, but it may run late, and
    which of the due timers runs next is the host's choice: [RunTimer]
    takes the one due first, [RunTimerAt n] takes the one at position [n]
    of the pending list whatever else is pending (a host that keeps one
    queue per delay runs a recent 8000 ms timer before an older-due
    2000 ms one once both are due).  [Date.now()] is the wall clock and
    can be set, also backwards ([SetClock]); the development keeps one
    clock, so after [SetClock] more timers may count as due than a host
    would allow, never fewer. *)
Inductive Event : Set :=
  | Elapse (ms : N)
  | RunTimer
  | CallCreateTask (workspaceId filename : string) (fileSize : Z)
  | CallFinalizeTask (taskId : string) (data : FinalizeData.t)
  | RunTimerAt (n : nat)
  | SetClock (now : Z).

Definition state_of {A} (o : Outcome A) : State :=
  match o with
  | Returned _ s => s
  | Thrown _ s => s
  end.

Definition step (e : Event) (s : State) : State :=
  match e with
  | Elapse ms =>
      {| heap := heap s; mockTasks := mockTasks s; mockMeetings := mockMeetings s;
         timers := timers s; clock := clock s + Z.of_N ms |}
  | RunTimer =>
      match pop_earliest (timers s) with
      | Some (tm, rest) =>
          if decide (due tm <= clock s) then
            run_callback (callback tm)
              {| heap := heap s; mockTasks := mockTasks s;
                 mockMeetings := mockMeetings s; timers := rest; clock := clock s |}
          else s
      | None => s
      end
  | CallCreateTask w f z => (createTask w f z s).2
  | CallFinalizeTask i d => state_of (finalizeTask i d s)
  | RunTimerAt n =>
      match timers s !! n with
      | Some tm =>
          if decide (due tm <= clock s) then
            run_callback (callback tm)
              {| heap := heap s; mockTasks := mockTasks s;
                 mockMeetings := mockMeetings s; timers := delete n (timers s);
                 clock := clock s |}
          else s
      | None => s
      end
  | SetClock now =>
      {| heap := heap s; mockTasks := mockTasks s; mockMeetings := mockMeetings s;
         timers := timers s; clock := now |}
  end.

(** The events of a host that runs timers in the order they fall due
    and whose clock is never set. *)
Definition in_due_order (e : Event) : bool :=
  match e with
  | RunTimerAt _ | SetClock _ => false
  | _ => true
  end.

Definition run (es : list Event) (s : State) : State :=
  foldl (fun s e => step e s) s es.

(** *** Uploads and [meetingsApi] with [ENABLE_MOCK_API] set *)

(** [createMeetingFromUpload] reads [task.id] off the object that
    [createTask] returned; that reference always points at the object
    just pushed, so the other branch is never taken. *)
Definition createMeetingFromUpload (workspaceId filename : string) (fileSize : Z)
    (s : State) : string * State :=
  let created := createTask workspaceId filename fileSize s in
  (match heap created.2 !! created.1 with
   | Some task => ProcessingTask.id task
   | None => ""
   end, created.2).

Definition meetingsApi_list (workspaceId : string) (s : State) : list Meeting.t :=
  getMeetings workspaceId s.

Definition meetingsApi_get (id : string) (s : State) : Outcome Meeting.t :=
  match getMeeting id s with
  | None => Thrown "Meeting not found" s
  | Some meeting => Returned meeting s
  end.

(** [data.file.name] and [data.file.size] are all that is read of the file. *)
Definition meetingsApi_create (workspaceId fileName : string) (fileSize : Z)
    (s : State) : UploadMeetingResponse.t * State :=
  let result := createMeetingFromUpload workspaceId fileName fileSize s in
  (UploadMeetingResponse.mk "" result.1
     "File uploaded successfully. Processing started.", result.2).

(** What no callback, in whatever order, can take away from a task
    object. *)
Definition settled (t : ProcessingTask.t) : Prop :=
  0 <= ProcessingTask.progress t <= 100 /\
  ProcessingTask.status t <> completed /\
  ProcessingTask.status t <> failed /\
  (ProcessingTask.progress t = 100 -> ProcessingTask.status t = review_ready).

(** Is the event a call of [finalizeTask]? *)
Definition is_finalize (e : Event) : bool :=
  match e with
  | CallFinalizeTask _ _ => true
  | _ => false
  end.

(** *** Invariants: valid references, and the states of a host that runs
    timers in due order *)

(** Every reference of the array points into the object store. *)
Definition refs_valid (s : State) : Prop :=
  Forall (fun r => (r < length (heap s))%nat) (mockTasks s).

(** Every pending timer was registered by a [createTask] that ran at
    some instant [c] not after now. *)
Definition timers_registered (s : State) : Prop :=
  forall tm, tm ∈ timers s ->
    exists c, c <= clock s /\ target (callback tm) = task_id c /\
              due tm = c + delay (callback tm).

(** A stored task that carries the id of the current instant (or of a
    later one) was created at this very instant and is untouched. *)
Definition current_untouched (s : State) : Prop :=
  forall r t c, r ∈ mockTasks s -> heap s !! r = Some t ->
    ProcessingTask.id t = task_id c -> clock s <= c ->
    c = clock s /\ staged 0 t.

(** The task a pending timer will find is at a point of the progression
    not beyond the timer's own, and the timers for the points in between
    are still pending. *)
Definition timers_ahead (s : State) : Prop :=
  forall tm r t, tm ∈ timers s ->
    find_task (heap s) (target (callback tm)) (mockTasks s) = Some (r, t) ->
    exists j, staged j t /\ (j <= kind (callback tm))%nat /\
      forall k, (j < k < kind (callback tm))%nat ->
        exists u, u ∈ timers s /\ target (callback u) = target (callback tm) /\
                  kind (callback u) = k.

Definition progress_in_range (s : State) : Prop :=
  forall r t, heap s !! r = Some t -> 0 <= ProcessingTask.progress t <= 100.

Record consistent (s : State) : Prop := {
  cons_refs : refs_valid s;
  cons_registered : timers_registered s;
  cons_current : current_untouched s;
  cons_ahead : timers_ahead s;
  cons_range : progress_in_range s
}.

(** The relation between two successive versions of one task object:
    its status stays or takes one step of the progression. *)
Definition status_moves (a b : TaskStatus) : Prop :=
  b = a \/ (a = queued /\ b = processing) \/ (a = processing /\ b = review_ready).

(** ** Lookup by id *)

Lemma find_task_Some h i refs r t :
  find_task h i refs = Some (r, t) ->
  r ∈ refs /\ h !! r = Some t /\ ProcessingTask.id t = i.
Proof.
  induction refs as [|x refs IH]; simpl; [done|].
  destruct (h !! x) as [t'|] eqn:E.
  - case_decide as Hid.
    + intros [= -> ->]. split; [left|done].
    + intros H. destruct (IH H) as (?&?&?). split; [by right|done].
  - intros H. destruct (IH H) as (?&?&?). split; [by right|done].
Qed.

Lemma find_task_None h i refs :
  find_task h i refs = None <-> Forall (id_differs h i) refs.
Proof.
  unfold id_differs. induction refs as [|x refs IH]; simpl.
  - split; [constructor|done].
  - rewrite Forall_cons. destruct (h !! x) as [t'|] eqn:E; simpl.
    + case_decide as Hid.
      * split; [done|]. intros [Hx _]. by subst.
      * rewrite IH. split; [|tauto]. intros ?. split; [congruence|done].
    + rewrite IH. split; [|tauto]. intros ?. by split.
Qed.

Lemma find_task_filter_same h i refs :
  find_task h i (filter (id_differs h i) refs) = None.
Proof.
  apply find_task_None, Forall_forall. intros r Hr.
  by apply list_elem_of_filter in Hr as [? _].
Qed.

Lemma find_task_filter_other h i j refs :
  j <> i ->
  find_task h j (filter (id_differs h i) refs) = find_task h j refs.
Proof.
  intros Hne. induction refs as [|x refs IH]; [done|].
  rewrite filter_cons. case_decide as Hx; simpl.
  - by rewrite IH.
  - rewrite IH. unfold id_differs in Hx.
    destruct (h !! x) as [t'|] eqn:E; simpl in *; [|done].
    case_decide; [|done]. subst. destruct Hx. congruence.
Qed.

Lemma find_task_alter h i refs (f : ProcessingTask.t -> ProcessingTask.t) r0 :
  (forall t, ProcessingTask.id (f t) = ProcessingTask.id t) ->
  find_task (alter f r0 h) i refs =
  (fun p => (p.1, if decide (r0 = p.1) then f p.2 else p.2)) <$> find_task h i refs.
Proof.
  intros Hid. induction refs as [|x refs IH]; [done|]. simpl.
  rewrite list_lookup_alter. destruct (decide (r0 = x)) as [->|Hne].
  - destruct (h !! x) as [t'|]; simpl; [|done].
    rewrite Hid. case_decide; simpl; [|done]. by rewrite decide_True.
  - destruct (h !! x) as [t'|]; simpl; [|done].
    case_decide; simpl; [|done]. by rewrite decide_False.
Qed.

Lemma find_task_snoc h i refs new :
  Forall (fun r => (r < length h)%nat) refs ->
  find_task (h ++ [new]) i (refs ++ [length h]) =
  match find_task h i refs with
  | Some p => Some p
  | None => if decide (ProcessingTask.id new = i) then Some (length h, new) else None
  end.
Proof.
  induction 1 as [|x refs Hx _ IH]; simpl.
  - by rewrite list_lookup_middle.
  - rewrite lookup_app_l, IH by done.
    destruct (h !! x) as [t'|]; [|done].
    by destruct (decide (ProcessingTask.id t' = i)).
Qed.

(** ** Creating a task *)

Lemma createTask_ref w f z s :
  (createTask w f z s).1 = length (heap s).
Proof. done. Qed.

Lemma createTask_heap w f z s :
  heap (createTask w f z s).2 !! (createTask w f z s).1 =
  Some (ProcessingTask.mk (task_id (clock s)) w f z queued 0
          [log_line (clock s) "File uploaded successfully"] (toISOString (clock s))).
Proof. simpl. by rewrite list_lookup_middle. Qed.

(** C4, as the code has it. A task as [createTask] returns it: status
    [queued], progress 0, and a log of exactly one line, which reads
    [[<local time>] File uploaded successfully]; it carries the given
    workspace and is in the task store. *)
Theorem createTask_starts_queued w f z s :
  exists t,
    heap (createTask w f z s).2 !! (createTask w f z s).1 = Some t /\
    (createTask w f z s).1 ∈ mockTasks (createTask w f z s).2 /\
    ProcessingTask.workspaceId t = w /\
    ProcessingTask.status t = queued /\
    ProcessingTask.progress t = 0 /\
    ProcessingTask.logs t =
      ["[" +:+ toLocaleTimeString (clock s) +:+ "] File uploaded successfully"] /\
    length (ProcessingTask.logs t) = 1%nat.
Proof.
  eexists. split; [apply createTask_heap|].
  split; [|done]. simpl. apply elem_of_app. right. by left.
Qed.

(** C5, as the code has it. [createTask] checks nothing and cannot fail:
    whatever the workspace, the file name (the empty one included) and
    the size, it appends one new task to the store and returns it. *)
Theorem createTask_never_rejects w f z s :
  mockTasks (createTask w f z s).2 = mockTasks s ++ [(createTask w f z s).1] /\
  exists t,
    heap (createTask w f z s).2 !! (createTask w f z s).1 = Some t /\
    ProcessingTask.filename t = f /\ ProcessingTask.status t = queued.
Proof. split; [done|]. eexists. split; [apply createTask_heap|done]. Qed.

(** ** Listing by workspace *)

(** C8. [getTasks] returns exactly the stored tasks of the workspace and
    [getMeetings] exactly its meetings: nothing foreign, nothing left out. *)
Theorem listing_is_scoped_by_workspace w s :
  (forall r, r ∈ getTasks w s <->
     r ∈ mockTasks s /\
     exists t, heap s !! r = Some t /\ ProcessingTask.workspaceId t = w) /\
  (forall m, m ∈ getMeetings w s <->
     m ∈ mockMeetings s /\ Meeting.workspaceId m = w).
Proof.
  split.
  - intros r. unfold getTasks, in_workspace. rewrite list_elem_of_filter.
    split; [intros [H1 H2]|intros [H1 (t & Ht & <-)]].
    + split; [done|]. destruct (heap s !! r) as [t|]; simplify_eq/=. by exists t.
    + split; [|done]. by rewrite Ht.
  - intros m. unfold getMeetings. rewrite list_elem_of_filter. tauto.
Qed.

(** ** Finalizing *)

Lemma finalizeTask_missing i d s :
  getTask i s = None -> finalizeTask i d s = Thrown "Task not found" s.
Proof. unfold getTask, finalizeTask. by intros ->. Qed.

Lemma finalizeTask_Returned i d s m s' :
  finalizeTask i d s = Returned m s' ->
  exists r t mt,
    getTask i s = Some (r, t) /\
    heap s' = heap s /\
    mockTasks s' = filter (id_differs (heap s) i) (mockTasks s) /\
    mockMeetings s' = mockMeetings s ++ [mt] /\
    timers s' = timers s /\ clock s' = clock s /\
    Meeting.id mt = m /\
    Meeting.workspaceId mt = ProcessingTask.workspaceId t /\
    Meeting.title mt = FinalizeData.title d /\
    Meeting.template mt = Some (FinalizeData.template d) /\
    Meeting.tags mt = Some (FinalizeData.tags d) /\
    Meeting.status mt = meeting_completed.
Proof.
  unfold getTask, finalizeTask.
  destruct (find_task _ _ _) as [[r t]|]; [|done].
  intros [= <- <-]. by eexists r, t, _.
Qed.

Lemma getTask_after_finalize i d s m s' :
  finalizeTask i d s = Returned m s' -> getTask i s' = None.
Proof.
  intros H. apply finalizeTask_Returned in H as (r & t & mt & _ & Hh & Hr & _).
  unfold getTask. rewrite Hh, Hr. apply find_task_filter_same.
Qed.

(** C1, as the code has it. [finalizeTask] asks only that a task with
    the id be in the store; its status plays no part.  Then the call
    returns, the meeting store grows by exactly one, the task is gone from
    the store, and a second call with the same id is thrown out with
    'Task not found', changing nothing. *)
Theorem finalizeTask_twice i d d' s r t :
  getTask i s = Some (r, t) ->
  exists m s',
    finalizeTask i d s = Returned m s' /\
    length (mockMeetings s') = S (length (mockMeetings s)) /\
    getTask i s' = None /\
    finalizeTask i d' s' = Thrown "Task not found" s'.
Proof.
  intros Hget.
  destruct (finalizeTask i d s) as [m s'|msg s'] eqn:Hfin.
  - exists m, s'. split; [done|].
    pose proof (getTask_after_finalize _ _ _ _ _ Hfin) as Hgone.
    apply finalizeTask_Returned in Hfin as (_ & _ & mt & _ & _ & _ & Hm & _).
    rewrite Hm, length_app. simpl. split; [lia|].
    split; [done|]. by apply finalizeTask_missing.
  - unfold getTask in Hget. unfold finalizeTask in Hfin. by rewrite Hget in Hfin.
Qed.

(** C3, as the code has it. A successful [finalizeTask] takes the task
    out of the store: it can no longer be looked up or listed, and
    [tasksApi.get] reports 'Task not found'.  The task object itself is
    not written to (its status is not set to [completed]); what records
    the completion is the new meeting, whose status is [completed]. *)
Theorem finalizeTask_removes_task i d s m s' :
  finalizeTask i d s = Returned m s' ->
  getTask i s' = None /\
  tasksApi_get i s' = Thrown "Task not found" s' /\
  (forall w r, r ∈ getTasks w s' -> id_differs (heap s') i r) /\
  heap s' = heap s /\
  exists mt, mockMeetings s' = mockMeetings s ++ [mt] /\
             Meeting.id mt = m /\ Meeting.status mt = meeting_completed.
Proof.
  intros Hfin. pose proof (getTask_after_finalize _ _ _ _ _ Hfin) as Hgone.
  apply finalizeTask_Returned in Hfin
    as (r & t & mt & _ & Hh & Hr & Hm & _ & _ & Hid & _ & _ & _ & _ & Hst).
  split; [done|]. split; [unfold tasksApi_get; by rewrite Hgone|].
  split; [|split; [done|by exists mt]].
  intros w r' Hin. unfold getTasks in Hin. rewrite Hr, Hh in Hin.
  apply list_elem_of_filter in Hin as [_ Hin].
  apply list_elem_of_filter in Hin as [Hin _]. by rewrite Hh.
Qed.

(** ** Timers and callbacks *)

Lemma task_id_inj c c' : task_id c = task_id c' -> c = c'.
Proof. unfold task_id. intros H. simplify_eq/=. by apply (inj pretty). Qed.

Lemma pop_earliest_perm ts tm rest :
  pop_earliest ts = Some (tm, rest) -> ts ≡ₚ tm :: rest.
Proof.
  revert tm rest. induction ts as [|t ts IH]; intros tm rest; simpl; [done|].
  destruct (pop_earliest ts) as [[u rest']|] eqn:E.
  - case_decide; intros [= <- <-]; [done|].
    rewrite (IH _ _ eq_refl). apply perm_swap.
  - intros [= <- <-]. destruct ts as [|t' ts]; [done|]. simpl in E.
    destruct (pop_earliest ts) as [[? ?]|]; [case_decide|]; done.
Qed.

Lemma pop_earliest_least ts tm rest :
  pop_earliest ts = Some (tm, rest) -> Forall (fun u => due tm <= due u) rest.
Proof.
  revert tm rest. induction ts as [|t ts IH]; intros tm rest; simpl; [done|].
  destruct (pop_earliest ts) as [[u rest']|] eqn:E.
  - pose proof (IH _ _ eq_refl) as Hle.
    case_decide as Hd; intros [= <- <-].
    + rewrite (pop_earliest_perm _ _ _ E). constructor; [done|].
      eapply Forall_impl; [exact Hle|]. simpl. lia.
    + constructor; [lia|done].
  - intros [= <- <-]. constructor.
Qed.

Lemma delay_le_kind cb cb' : delay cb <= delay cb' -> (kind cb <= kind cb')%nat.
Proof. destruct cb, cb'; simpl; lia. Qed.

Lemma delay_positive cb : 0 < delay cb.
Proof. destruct cb; simpl; lia. Qed.

Lemma kind_bounds cb : (1 <= kind cb <= 3)%nat.
Proof. destruct cb; simpl; lia. Qed.

Lemma callback_body_target now cb : (callback_body now cb).1 = target cb.
Proof. by destruct cb. Qed.

Lemma callback_body_id now cb t :
  ProcessingTask.id ((callback_body now cb).2 t) = ProcessingTask.id t.
Proof. by destruct cb. Qed.

Lemma callback_body_logs now cb t :
  exists lines, lines <> [] /\
    ProcessingTask.logs ((callback_body now cb).2 t) = ProcessingTask.logs t ++ lines.
Proof.
  destruct cb; simpl.
  - by eexists [_].
  - by eexists [_].
  - eexists [_; _; _; _]. split; [done|]. by rewrite <- !app_assoc.
Qed.

Lemma callback_body_range now cb t :
  0 <= ProcessingTask.progress ((callback_body now cb).2 t) <= 100.
Proof. destruct cb; simpl; lia. Qed.

Lemma callback_body_staged now cb t j :
  staged j t -> kind cb = j \/ kind cb = S j ->
  staged (kind cb) ((callback_body now cb).2 t).
Proof.
  destruct cb; simpl; intros Hst [<-|[= <-]]; simpl in *; try done;
    by destruct Hst.
Qed.

Lemma staged_functional j k t : staged j t -> staged k t -> j = k.
Proof.
  destruct j as [|[|[|[|j]]]], k as [|[|[|[|k]]]]; simpl; try done;
    intros [? ?] [? ?]; congruence || lia.
Qed.

(** Two versions of a task object, one callback apart. *)
Lemma staged_step_moves j k a b :
  staged j a -> staged k b -> k = j \/ k = S j ->
  status_moves (ProcessingTask.status a) (ProcessingTask.status b) /\
  ProcessingTask.progress a <= ProcessingTask.progress b.
Proof.
  unfold status_moves. intros Ha Hb Hk.
  destruct j as [|[|[|[|j]]]]; simpl in Ha; [| | | |done];
    destruct Ha as [Ha Hp]; destruct Hk as [->| ->]; simpl in Hb; try done;
    destruct Hb as [Hb Hq]; rewrite Ha, Hb, Hp, Hq; (split; [tauto|lia]).
Qed.

(** ** The invariant of due-order hosts holds initially and is kept by
    their events *)

Lemma consistent_initial now : 2 < now -> consistent (initial now).
Proof.
  intros Hnow.
  assert (task_id 1 = "task_1") as H1 by (vm_compute; reflexivity).
  assert (task_id 2 = "task_2") as H2 by (vm_compute; reflexivity).
  split.
  - unfold refs_valid. simpl. repeat constructor.
  - intros tm Hin. by apply elem_of_nil in Hin.
  - intros r t c Hr Ht Hid Hc. simpl in *.
    destruct r as [|[|r]]; simplify_eq/=.
    + rewrite <- H1 in Hid. apply task_id_inj in Hid. lia.
    + rewrite <- H2 in Hid. apply task_id_inj in Hid. lia.
  - intros tm r t Hin. by apply elem_of_nil in Hin.
  - intros r t Ht. destruct r as [|[|r]]; simplify_eq/=; lia.
Qed.

Lemma consistent_elapse ms s :
  consistent s -> consistent (step (Elapse ms) s).
Proof.
  intros [Hv Hr Hc Ha Hp]. split; simpl; try done.
  - intros tm Hin. destruct (Hr tm Hin) as (c & ? & ? & ?).
    exists c. simpl. split; [lia|done].
  - intros r t c Hin Ht Hid Hle. simpl in *.
    destruct (Hc r t c Hin Ht Hid) as [-> ?]; [lia|]. split; [lia|done].
Qed.

Lemma consistent_finalize i d s :
  consistent s -> consistent (step (CallFinalizeTask i d) s).
Proof.
  intros Hs. simpl.
  destruct (finalizeTask i d s) as [m s'|msg s'] eqn:Hfin; simpl.
  - apply finalizeTask_Returned in Hfin
      as (r0 & t0 & mt & _ & Hh & Hrefs & _ & Htm & Hclk & _).
    destruct Hs as [Hv Hr Hc Ha Hp]. split.
    + unfold refs_valid. rewrite Hh, Hrefs. apply Forall_forall.
      intros r Hin. apply list_elem_of_filter in Hin as [_ Hin].
      unfold refs_valid in Hv. rewrite Forall_forall in Hv. by apply Hv.
    + unfold timers_registered. by rewrite Htm, Hclk.
    + intros r t c Hin. rewrite Hh, Hclk. rewrite Hrefs in Hin.
      apply list_elem_of_filter in Hin as [_ Hin]. by apply Hc.
    + intros tm r t Hin. rewrite Htm in Hin |- *. rewrite Hh, Hrefs.
      destruct (decide (target (callback tm) = i)) as [->|Hne].
      * by rewrite find_task_filter_same.
      * rewrite find_task_filter_other by done. by apply Ha.
    + unfold progress_in_range. by rewrite Hh.
  - unfold finalizeTask in Hfin.
    destruct (find_task _ _ _) as [[? ?]|]; [done|]. by injection Hfin as _ <-.
Qed.

Lemma new_timers_between now i cb k :
  target cb = i -> (0 < k < kind cb)%nat ->
  exists u,
    u ∈ [ mkTimer (now + 2000) (StartTranscription i);
          mkTimer (now + 8000) (HalfTranscribed i);
          mkTimer (now + 15000) (ReadyForReview i) ] /\
    target (callback u) = target cb /\ kind (callback u) = k.
Proof.
  intros <- Hk. pose proof (kind_bounds cb).
  assert (k = 1 \/ k = 2)%nat as [-> | ->] by lia.
  - eexists. split; [by left|done].
  - eexists. split; [right; by left|done].
Qed.

Lemma consistent_create w f z s :
  consistent s -> consistent (step (CallCreateTask w f z) s).
Proof.
  intros [Hv Hr Hc Ha Hp]. split; simpl.
  - unfold refs_valid. simpl. rewrite Forall_app, Forall_singleton, length_app.
    split; [|simpl; lia]. eapply Forall_impl; [exact Hv|]. simpl. lia.
  - intros tm Hin. simpl in *. apply elem_of_app in Hin as [Hin|Hin]; [by apply Hr|].
    exists (clock s). split; [lia|].
    repeat (apply elem_of_cons in Hin as [->|Hin]; [done|]).
    by apply elem_of_nil in Hin.
  - intros r t c Hin Ht Hid Hle. simpl in *.
    apply elem_of_app in Hin as [Hin|Hin].
    + rewrite lookup_app_l in Ht; [by eapply Hc|].
      unfold refs_valid in Hv. rewrite Forall_forall in Hv. by apply Hv.
    + apply list_elem_of_singleton in Hin as ->.
      rewrite list_lookup_middle in Ht by done. injection Ht as <-. simpl in *.
      apply task_id_inj in Hid. by subst.
  - intros tm r t Hin Hfind. simpl in *.
    rewrite find_task_snoc in Hfind by exact Hv.
    assert (forall t', staged 0 t' ->
              target (callback tm) = task_id (clock s) ->
              exists j, staged j t' /\ (j <= kind (callback tm))%nat /\
                forall k, (j < k < kind (callback tm))%nat ->
                  exists u,
                    u ∈ timers s ++
                      [ mkTimer (clock s + 2000) (StartTranscription (task_id (clock s)));
                        mkTimer (clock s + 8000) (HalfTranscribed (task_id (clock s)));
                        mkTimer (clock s + 15000) (ReadyForReview (task_id (clock s))) ] /\
                    target (callback u) = target (callback tm) /\
                    kind (callback u) = k) as Hfresh.
    { intros t' Hst Htgt. exists 0%nat. split; [done|]. split; [lia|].
      intros k Hk.
      destruct (new_timers_between (clock s) _ _ k Htgt Hk) as (u & ? & ? & ?).
      exists u. split; [|done]. apply elem_of_app. by right. }
    assert (tm ∈ timers s \/ target (callback tm) = task_id (clock s)) as Hcase.
    { apply elem_of_app in Hin as [Hin|Hin]; [by left|right].
      repeat (apply elem_of_cons in Hin as [->|Hin]; [done|]).
      by apply elem_of_nil in Hin. }
    destruct (find_task (heap s) _ (mockTasks s)) as [[r' t']|] eqn:Hold.
    + injection Hfind as -> ->.
      destruct Hcase as [Hin'|Htgt].
      * destruct (Ha tm r t Hin' Hold) as (j & Hst & Hj & Hbetween).
        exists j. split; [done|]. split; [done|]. intros k Hk.
        destruct (Hbetween k Hk) as (u & ? & ? & ?).
        exists u. split; [|done]. apply elem_of_app. by left.
      * apply find_task_Some in Hold as (Hin' & Ht & Hid).
        apply Hfresh; [|done]. rewrite Htgt in Hid.
        by destruct (Hc r t (clock s) Hin' Ht Hid).
    + case_decide as Hid; [|done]. injection Hfind as <- <-.
      apply Hfresh; [done|]. by rewrite <- Hid.
  - intros r t Ht. simpl in *. apply lookup_app_Some in Ht as [Ht|[_ Ht]].
    + by eapply Hp.
    + apply list_lookup_singleton_Some in Ht as [_ <-]. simpl. lia.
Qed.

Lemma run_callback_eq cb s :
  run_callback cb s =
  {| heap := update_task (heap s) (mockTasks s) (target cb)
               (callback_body (clock s) cb).2;
     mockTasks := mockTasks s; mockMeetings := mockMeetings s;
     timers := timers s; clock := clock s |}.
Proof. by destruct cb. Qed.

(** When the event loop picks a timer, the task it finds is at the point
    just before the timer's own, or already at it. *)
Lemma fired_timer_stage s tm rest r t :
  consistent s ->
  pop_earliest (timers s) = Some (tm, rest) ->
  find_task (heap s) (target (callback tm)) (mockTasks s) = Some (r, t) ->
  exists j, staged j t /\ (kind (callback tm) = j \/ kind (callback tm) = S j).
Proof.
  intros [Hv Hr Hc Ha Hp] Hpop Hfind.
  pose proof (pop_earliest_perm _ _ _ Hpop) as Hperm.
  pose proof (pop_earliest_least _ _ _ Hpop) as Hleast.
  assert (tm ∈ timers s) as Hin by (rewrite Hperm; left).
  destruct (Ha tm r t Hin Hfind) as (j & Hst & Hj & Hbetween).
  exists j. split; [done|].
  destruct (decide (S j < kind (callback tm))%nat) as [Hlt|]; [|lia].
  destruct (Hbetween (S j)) as (u & Hu & Htgt & Hk); [lia|].
  assert (u ∈ rest) as Hu'.
  { pose proof Hu as Hu2. rewrite Hperm in Hu2.
    apply elem_of_cons in Hu2 as [->|]; [lia|done]. }
  rewrite Forall_forall in Hleast. specialize (Hleast u Hu').
  destruct (Hr tm Hin) as (c & _ & Hc1 & Hd1).
  destruct (Hr u Hu) as (c' & _ & Hc2 & Hd2).
  rewrite Htgt, Hc1 in Hc2. apply task_id_inj in Hc2. subst c'.
  assert (delay (callback tm) <= delay (callback u)) as Hd by lia.
  apply delay_le_kind in Hd. lia.
Qed.

Lemma consistent_timer s :
  consistent s -> consistent (step RunTimer s).
Proof.
  intros Hs. simpl.
  destruct (pop_earliest (timers s)) as [[tm rest]|] eqn:Hpop; [|done].
  case_decide as Hdue; [|done].
  rewrite run_callback_eq. simpl. unfold update_task.
  pose proof (pop_earliest_perm _ _ _ Hpop) as Hperm.
  pose proof (pop_earliest_least _ _ _ Hpop) as Hleast.
  rewrite Forall_forall in Hleast.
  assert (tm ∈ timers s) as Hin by (rewrite Hperm; left).
  assert (forall u, u ∈ rest -> u ∈ timers s) as Hsub
    by (intros u ?; rewrite Hperm; by right).
  destruct (find_task (heap s) (target (callback tm)) (mockTasks s))
    as [[r0 t0]|] eqn:Hfind.
  - destruct (fired_timer_stage _ _ _ _ _ Hs Hpop Hfind) as (j0 & Hst0 & Hk0).
    destruct Hs as [Hv Hr Hc Ha Hp].
    pose proof (find_task_Some _ _ _ _ _ Hfind) as (Hin0 & Hheap0 & Hid0).
    destruct (Hr tm Hin) as (c0 & Hc0 & Htgt0 & Hdue0).
    split; simpl.
    + unfold refs_valid. simpl. by rewrite length_alter.
    + intros u Hu. simpl in *. by apply Hr, Hsub.
    + intros r t c Hinr Ht Hidt Hle. simpl in *.
      rewrite list_lookup_alter in Ht. destruct (decide (r0 = r)) as [<-|Hne].
      * rewrite Hheap0 in Ht. simpl in Ht. injection Ht as <-.
        rewrite callback_body_id, Hid0, Htgt0 in Hidt.
        apply task_id_inj in Hidt. pose proof (delay_positive (callback tm)). lia.
      * by eapply Hc.
    + intros u r t Hu Hfu. simpl in *.
      rewrite find_task_alter in Hfu by apply callback_body_id.
      destruct (find_task (heap s) (target (callback u)) (mockTasks s))
        as [[r' t']|] eqn:Hold; [|done].
      simpl in Hfu. injection Hfu as <- <-.
      destruct (Ha u r' t' (Hsub u Hu) Hold) as (j & Hst & Hj & Hbetween).
      pose proof (find_task_Some _ _ _ _ _ Hold) as (_ & Hheap' & Hid').
      destruct (decide (r0 = r')) as [<-|Hne].
      * assert (t' = t0) as -> by congruence.
        assert (j = j0) as -> by (by eapply staged_functional).
        assert (target (callback u) = target (callback tm)) as Hsame by congruence.
        exists (kind (callback tm)).
        split; [by eapply callback_body_staged|]. split.
        -- destruct (Hr u (Hsub u Hu)) as (c & _ & Htgt & Hdu).
           rewrite Hsame, Htgt0 in Htgt. apply task_id_inj in Htgt. subst c.
           specialize (Hleast u Hu). apply delay_le_kind. lia.
        -- intros k Hk. destruct (Hbetween k) as (v & Hvin & Htv & Hkv); [lia|].
           exists v. split; [|done]. rewrite Hperm in Hvin.
           apply elem_of_cons in Hvin as [->|]; [lia|done].
      * exists j. split; [done|]. split; [done|]. intros k Hk.
        destruct (Hbetween k Hk) as (v & Hvin & Htv & Hkv).
        exists v. split; [|done]. rewrite Hperm in Hvin.
        apply elem_of_cons in Hvin as [->|]; [|done].
        rewrite Htv in Hfind. congruence.
    + intros r t Ht. simpl in *. rewrite list_lookup_alter in Ht.
      destruct (decide (r0 = r)) as [<-|Hne]; [|by eapply Hp].
      rewrite Hheap0 in Ht. simpl in Ht. injection Ht as <-.
      apply callback_body_range.
  - destruct Hs as [Hv Hr Hc Ha Hp]. split; simpl; try done.
    + intros u Hu. simpl in *. by apply Hr, Hsub.
    + intros u r t Hu Hfu. simpl in *.
      destruct (Ha u r t (Hsub u Hu) Hfu) as (j & Hst & Hj & Hbetween).
      exists j. split; [done|]. split; [done|]. intros k Hk.
      destruct (Hbetween k Hk) as (v & Hvin & Htv & Hkv).
      exists v. split; [|done]. rewrite Hperm in Hvin.
      apply elem_of_cons in Hvin as [->|]; [|done].
      rewrite Htv in Hfind. congruence.
Qed.

Lemma consistent_step e s :
  in_due_order e = true -> consistent s -> consistent (step e s).
Proof.
  destruct e; intros Horder; try discriminate.
  - apply consistent_elapse.
  - apply consistent_timer.
  - apply consistent_create.
  - apply consistent_finalize.
Qed.

Lemma consistent_run es s :
  forallb in_due_order es = true -> consistent s -> consistent (run es s).
Proof.
  revert s. induction es as [|e es IH]; intros s Hes Hs; [done|].
  simpl in *. apply andb_prop in Hes as [He Hes]. by apply IH, consistent_step.
Qed.

(** ** What one event does to one task object *)

Lemma step_object e s r a b :
  heap s !! r = Some a -> heap (step e s) !! r = Some b ->
  b = a \/ exists now cb, b = (callback_body now cb).2 a.
Proof.
  intros Ha Hb. destruct e as [ms| |w f z|i d|n|now]; simpl in Hb.
  - left. congruence.
  - destruct (pop_earliest (timers s)) as [[tm rest]|]; [|left; congruence].
    case_decide; [|left; congruence].
    rewrite run_callback_eq in Hb. simpl in Hb. unfold update_task in Hb.
    destruct (find_task _ _ _) as [[r0 t0]|]; [|left; congruence].
    rewrite list_lookup_alter in Hb.
    destruct (decide (r0 = r)) as [<-|]; [|left; congruence].
    rewrite Ha in Hb. simpl in Hb. injection Hb as <-. right. by eexists _, _.
  - left. rewrite lookup_app_l in Hb by (by eapply lookup_lt_Some). congruence.
  - left. unfold finalizeTask in Hb.
    destruct (find_task _ _ _) as [[? ?]|]; simpl in Hb; congruence.
  - destruct (timers s !! n) as [tm|]; [|left; congruence].
    case_decide; [|left; congruence].
    rewrite run_callback_eq in Hb. simpl in Hb. unfold update_task in Hb.
    destruct (find_task _ _ _) as [[r0 t0]|]; [|left; congruence].
    rewrite list_lookup_alter in Hb.
    destruct (decide (r0 = r)) as [<-|]; [|left; congruence].
    rewrite Ha in Hb. simpl in Hb. injection Hb as <-. right. by eexists _, _.
  - left. congruence.
Qed.

Lemma step_object_staged e s r a b :
  in_due_order e = true ->
  consistent s ->
  heap s !! r = Some a -> heap (step e s) !! r = Some b ->
  b = a \/ exists j k, staged j a /\ staged k b /\ (k = j \/ k = S j).
Proof.
  intros Horder Hs Ha Hb.
  destruct e as [ms| |w f z|i d|n|now]; try discriminate; simpl in Hb.
  - left. congruence.
  - destruct (pop_earliest (timers s)) as [[tm rest]|] eqn:Hpop; [|left; congruence].
    case_decide; [|left; congruence].
    rewrite run_callback_eq in Hb. simpl in Hb. unfold update_task in Hb.
    destruct (find_task _ _ _) as [[r0 t0]|] eqn:Hfind; [|left; congruence].
    rewrite list_lookup_alter in Hb.
    destruct (decide (r0 = r)) as [<-|]; [|left; congruence].
    rewrite Ha in Hb. simpl in Hb. injection Hb as <-. right.
    destruct (fired_timer_stage _ _ _ _ _ Hs Hpop Hfind) as (j & Hst & Hk).
    apply find_task_Some in Hfind as (_ & Hh & _).
    assert (t0 = a) as -> by congruence.
    exists j, (kind (callback tm)). split; [done|].
    split; [by eapply callback_body_staged|]. destruct Hk as [Hk|Hk]; rewrite Hk; auto.
  - left. rewrite lookup_app_l in Hb by (by eapply lookup_lt_Some). congruence.
  - left. unfold finalizeTask in Hb.
    destruct (find_task _ _ _) as [[? ?]|]; simpl in Hb; congruence.
Qed.

Lemma step_new_object e s r b :
  heap s !! r = None -> heap (step e s) !! r = Some b ->
  staged 0 b /\ length (ProcessingTask.logs b) = 1%nat.
Proof.
  intros Ha Hb. destruct e as [ms| |w f z|i d|n|now]; simpl in Hb.
  - congruence.
  - destruct (pop_earliest (timers s)) as [[tm rest]|]; [|congruence].
    case_decide; [|congruence].
    rewrite run_callback_eq in Hb. simpl in Hb. unfold update_task in Hb.
    destruct (find_task _ _ _) as [[r0 t0]|]; [|congruence].
    rewrite list_lookup_alter in Hb.
    destruct (decide (r0 = r)) as [<-|]; [|congruence].
    by rewrite Ha in Hb.
  - apply lookup_app_Some in Hb as [Hb|[_ Hb]]; [congruence|].
    by apply list_lookup_singleton_Some in Hb as [_ <-].
  - unfold finalizeTask in Hb.
    destruct (find_task _ _ _) as [[? ?]|]; simpl in Hb; congruence.
  - destruct (timers s !! n) as [tm|]; [|congruence].
    case_decide; [|congruence].
    rewrite run_callback_eq in Hb. simpl in Hb. unfold update_task in Hb.
    destruct (find_task _ _ _) as [[r0 t0]|]; [|congruence].
    rewrite list_lookup_alter in Hb.
    destruct (decide (r0 = r)) as [<-|]; [|congruence].
    by rewrite Ha in Hb.
  - congruence.
Qed.

Lemma step_heap_length e s : (length (heap s) <= length (heap (step e s)))%nat.
Proof.
  destruct e as [ms| |w f z|i d|n|now]; simpl; [done| | | | |done].
  - destruct (pop_earliest (timers s)) as [[tm rest]|]; [|done].
    case_decide; [|done]. rewrite run_callback_eq. simpl. unfold update_task.
    destruct (find_task _ _ _) as [[r0 t0]|]; [|done]. by rewrite length_alter.
  - rewrite length_app. lia.
  - unfold finalizeTask. by destruct (find_task _ _ _) as [[? ?]|].
  - destruct (timers s !! n) as [tm|]; [|done].
    case_decide; [|done]. rewrite run_callback_eq. simpl. unfold update_task.
    destruct (find_task _ _ _) as [[r0 t0]|]; [|done]. by rewrite length_alter.
Qed.

Lemma step_object_stays e s r a :
  heap s !! r = Some a -> is_Some (heap (step e s) !! r).
Proof.
  intros Ha. apply lookup_lt_is_Some. apply lookup_lt_Some in Ha.
  pose proof (step_heap_length e s). lia.
Qed.

(** ** Logs *)

Lemma step_logs e s r a b :
  heap s !! r = Some a -> heap (step e s) !! r = Some b ->
  ProcessingTask.logs a `prefix_of` ProcessingTask.logs b /\
  (ProcessingTask.status a <> ProcessingTask.status b ->
   (length (ProcessingTask.logs a) < length (ProcessingTask.logs b))%nat).
Proof.
  intros Ha Hb.
  destruct (step_object _ _ _ _ _ Ha Hb) as [->|(now & cb & ->)]; [done|].
  destruct (callback_body_logs now cb a) as (lines & Hne & ->).
  split; [by apply prefix_app_r|]. intros _. rewrite length_app.
  destruct lines; [done|]. simpl. lia.
Qed.

(** C7. Whatever happens to the module, from any state, the log of a task
    object only grows at its end: the earlier log is a prefix of the later
    one.  And whenever the status of the task has changed, the log has
    grown by at least one line. *)
Theorem logs_append_only es s r a b :
  heap s !! r = Some a -> heap (run es s) !! r = Some b ->
  ProcessingTask.logs a `prefix_of` ProcessingTask.logs b /\
  (ProcessingTask.status a <> ProcessingTask.status b ->
   (length (ProcessingTask.logs a) < length (ProcessingTask.logs b))%nat).
Proof.
  revert s a. induction es as [|e es IH]; intros s a Ha Hb; simpl in Hb.
  - assert (b = a) as -> by congruence. done.
  - destruct (step_object_stays e _ _ _ Ha) as [a' Ha'].
    destruct (step_logs _ _ _ _ _ Ha Ha') as [Hpre Hlen].
    destruct (IH _ _ Ha' Hb) as [Hpre' Hlen'].
    split; [by etrans|]. intros Hst.
    apply prefix_length in Hpre, Hpre'.
    destruct (decide (ProcessingTask.status a = ProcessingTask.status a')) as [Heq|Hne].
    + rewrite Heq in Hst. specialize (Hlen' Hst). lia.
    + specialize (Hlen Hne). lia.
Qed.

(** ** Status along any run *)


(** ** What every reachable task object satisfies *)

Lemma settled_callback now cb t :
  settled t -> settled ((callback_body now cb).2 t).
Proof.
  unfold settled. intros (Hr & Hc & Hf & H100).
  destruct cb; simpl; repeat split; try lia; try done.
Qed.

Lemma settled_step e s r b :
  (forall r' a, heap s !! r' = Some a -> settled a) ->
  heap (step e s) !! r = Some b -> settled b.
Proof.
  intros Hall Hb. destruct (heap s !! r) as [a|] eqn:Ha.
  - destruct (step_object _ _ _ _ _ Ha Hb) as [->|(now & cb & ->)].
    + by eapply Hall.
    + apply settled_callback. by eapply Hall.
  - destruct (step_new_object _ _ _ _ Ha Hb) as [[Hst Hp] _].
    unfold settled. rewrite Hst, Hp. repeat split; (lia || done).
Qed.

Lemma settled_run es s :
  (forall r a, heap s !! r = Some a -> settled a) ->
  forall r b, heap (run es s) !! r = Some b -> settled b.
Proof.
  revert s. induction es as [|e es IH]; intros s Hall; [done|]. simpl.
  apply IH. intros r a. by apply settled_step.
Qed.

Lemma settled_initial now r a :
  heap (initial now) !! r = Some a -> settled a.
Proof.
  intros Ha. destruct r as [|[|r]]; simplify_eq/=;
    unfold settled; simpl; repeat split; (lia || done).
Qed.

(** ** Hosts that run timers in due order

    Where the host runs every timer in the order the timers fall due
    and the clock is never set, a task object passes queued, processing,
    review_ready in this order and its progress never drops. *)

Lemma run_progress es s r a b :
  forallb in_due_order es = true ->
  consistent s ->
  heap s !! r = Some a -> heap (run es s) !! r = Some b ->
  ProcessingTask.progress a <= ProcessingTask.progress b.
Proof.
  revert s a. induction es as [|e es IH]; intros s a Hes Hs Ha Hb; simpl in Hb.
  - assert (b = a) as -> by congruence. done.
  - simpl in Hes. apply andb_prop in Hes as [He Hes].
    destruct (step_object_stays e _ _ _ Ha) as [a' Ha'].
    etrans; [|by eapply (IH (step e s) a'); [|apply consistent_step|..]].
    destruct (step_object_staged _ _ _ _ _ He Hs Ha Ha')
      as [->|(j & k & Hj & Hk & Hjk)]; [done|].
    by eapply staged_step_moves.
Qed.

Lemma run_app es es' s : run (es ++ es') s = run es' (run es s).
Proof. apply foldl_app. Qed.

Lemma due_order_progress_never_decreases now es es' r a b :
  2 < now ->
  forallb in_due_order (es ++ es') = true ->
  heap (run es (initial now)) !! r = Some a ->
  heap (run (es ++ es') (initial now)) !! r = Some b ->
  ProcessingTask.progress a <= ProcessingTask.progress b.
Proof.
  intros Hnow Hes Ha Hb. rewrite forallb_app in Hes.
  apply andb_prop in Hes as [Hes Hes'].
  pose proof (consistent_run es _ Hes (consistent_initial _ Hnow)) as Hs.
  rewrite run_app in Hb. exact (run_progress es' _ r a b Hes' Hs Ha Hb).
Qed.

Lemma due_order_status_follows_progression now es e r a b :
  2 < now ->
  forallb in_due_order es = true -> in_due_order e = true ->
  heap (run es (initial now)) !! r = Some a ->
  heap (step e (run es (initial now))) !! r = Some b ->
  status_moves (ProcessingTask.status a) (ProcessingTask.status b).
Proof.
  intros Hnow Hes He Ha Hb.
  pose proof (consistent_run es _ Hes (consistent_initial _ Hnow)) as Hs.
  destruct (step_object_staged _ _ _ _ _ He Hs Ha Hb)
    as [->|(j & k & Hj & Hk & Hjk)]; [by left|].
  by eapply staged_step_moves.
Qed.

(** ** Lookup after creation, and what finalizing leaves alone *)

Lemma getTask_missing_reported i s :
  getTask i s = None -> tasksApi_get i s = Thrown "Task not found" s.
Proof. unfold tasksApi_get. by intros ->. Qed.

(** Where no stored task carries the id of the current instant, the task
    just created is the one its id finds. *)
Lemma getTask_after_createTask_fresh w f z s :
  refs_valid s ->
  getTask (task_id (clock s)) s = None ->
  exists t,
    heap (createTask w f z s).2 !! (createTask w f z s).1 = Some t /\
    getTask (ProcessingTask.id t) (createTask w f z s).2 =
      Some ((createTask w f z s).1, t) /\
    tasksApi_get (ProcessingTask.id t) (createTask w f z s).2 =
      Returned ((createTask w f z s).1, t) (createTask w f z s).2.
Proof.
  intros Hv Hnone. eexists. split; [apply createTask_heap|].
  assert (getTask (task_id (clock s)) (createTask w f z s).2 =
          Some (length (heap s), ProcessingTask.mk (task_id (clock s)) w f z queued 0
             [log_line (clock s) "File uploaded successfully"] (toISOString (clock s))))
    as Hget.
  { unfold getTask in *. simpl. rewrite find_task_snoc by exact Hv.
    rewrite Hnone. simpl. by rewrite decide_True. }
  split; [exact Hget|]. unfold tasksApi_get. simpl ProcessingTask.id. by rewrite Hget.
Qed.

Lemma filter_agree {A} (P Q : A -> Prop) `{!forall x, Decision (P x)}
    `{!forall x, Decision (Q x)} (l : list A) :
  Forall (fun x => P x <-> Q x) l -> filter P l = filter Q l.
Proof.
  induction 1 as [|x l Hx _ IH]; [done|].
  rewrite !filter_cons, IH. destruct (decide (P x)), (decide (Q x)); tauto.
Qed.

(** Where the id is carried by one stored task only, finalizing removes
    that reference and no other. *)
Lemma finalizeTask_unique_id i d s r t m s' :
  getTask i s = Some (r, t) ->
  (forall r' t', r' ∈ mockTasks s -> heap s !! r' = Some t' ->
                 ProcessingTask.id t' = i -> r' = r) ->
  refs_valid s ->
  finalizeTask i d s = Returned m s' ->
  mockTasks s' = filter (fun r' => r' <> r) (mockTasks s).
Proof.
  intros Hget Huniq Hv Hfin.
  apply finalizeTask_Returned in Hfin as (_ & _ & _ & _ & _ & -> & _).
  apply find_task_Some in Hget as (Hin & Hh & Hid).
  unfold refs_valid in Hv. rewrite Forall_forall in Hv.
  apply filter_agree. apply Forall_forall. intros r' Hr' . unfold id_differs.
  destruct (lookup_lt_is_Some_2 _ _ (Hv r' Hr')) as [t' Ht']. rewrite Ht'. simpl.
  split.
  - intros Hne ->. rewrite Hh in Ht'. injection Ht' as <-. by rewrite Hid in Hne.
  - intros Hne [= Heq]. by apply Hne, (Huniq r' t').
Qed.

(** ** More about the store along a run *)

Lemma callback_body_identity now cb t :
  ProcessingTask.workspaceId ((callback_body now cb).2 t) = ProcessingTask.workspaceId t /\
  ProcessingTask.filename ((callback_body now cb).2 t) = ProcessingTask.filename t /\
  ProcessingTask.fileSize ((callback_body now cb).2 t) = ProcessingTask.fileSize t /\
  ProcessingTask.startTime ((callback_body now cb).2 t) = ProcessingTask.startTime t.
Proof. by destruct cb. Qed.

(** X1. Whatever happens to the module, the id, the workspace, the file
    name, the file size and the start time of a task object stay what
    they were when it was created. *)
Theorem task_identity_is_immutable es s r a b :
  heap s !! r = Some a -> heap (run es s) !! r = Some b ->
  ProcessingTask.id b = ProcessingTask.id a /\
  ProcessingTask.workspaceId b = ProcessingTask.workspaceId a /\
  ProcessingTask.filename b = ProcessingTask.filename a /\
  ProcessingTask.fileSize b = ProcessingTask.fileSize a /\
  ProcessingTask.startTime b = ProcessingTask.startTime a.
Proof.
  revert s a. induction es as [|e es IH]; intros s a Ha Hb; simpl in Hb.
  - assert (b = a) as -> by congruence. done.
  - destruct (step_object_stays e _ _ _ Ha) as [a' Ha'].
    destruct (IH _ _ Ha' Hb) as (-> & -> & -> & -> & ->).
    destruct (step_object _ _ _ _ _ Ha Ha') as [->|(now & cb & ->)]; [done|].
    split; [apply callback_body_id|apply callback_body_identity].
Qed.

Lemma step_meetings e s :
  mockMeetings s `prefix_of` mockMeetings (step e s).
Proof.
  destruct e as [ms| |w f z|i d|n|now]; simpl; [done| |done| | |done].
  - destruct (pop_earliest (timers s)) as [[tm rest]|]; [|done].
    case_decide; [|done]. by rewrite run_callback_eq.
  - unfold finalizeTask. destruct (find_task _ _ _) as [[? ?]|]; simpl; [|done].
    by apply prefix_app_r.
  - destruct (timers s !! n) as [tm|]; [|done].
    case_decide; [|done]. by rewrite run_callback_eq.
Qed.

(** X2. No event takes a meeting out of the meeting store or rewrites
    one: the store before a run is a prefix of the store after it. *)
Theorem meetings_only_grow es s :
  mockMeetings s `prefix_of` mockMeetings (run es s).
Proof.
  revert s. induction es as [|e es IH]; intros s; simpl; [done|].
  etrans; [apply step_meetings|apply IH].
Qed.

Lemma refs_valid_step e s : refs_valid s -> refs_valid (step e s).
Proof.
  unfold refs_valid. intros Hv.
  destruct e as [ms| |w f z|i d|n|now]; simpl; [done| | | | |done].
  - destruct (pop_earliest (timers s)) as [[tm rest]|]; [|done].
    case_decide; [|done]. rewrite run_callback_eq. simpl. unfold update_task.
    destruct (find_task _ _ _) as [[r0 t0]|]; [|done]. by rewrite length_alter.
  - rewrite Forall_app, Forall_singleton, length_app.
    split; [|simpl; lia]. eapply Forall_impl; [exact Hv|]. simpl. lia.
  - unfold finalizeTask. destruct (find_task _ _ _) as [[? ?]|]; simpl; [|done].
    apply Forall_forall. intros r Hin. apply list_elem_of_filter in Hin as [_ Hin].
    rewrite Forall_forall in Hv. by apply Hv.
  - destruct (timers s !! n) as [tm|]; [|done].
    case_decide; [|done]. rewrite run_callback_eq. simpl. unfold update_task.
    destruct (find_task _ _ _) as [[r0 t0]|]; [|done]. by rewrite length_alter.
Qed.

(** A task object that is not in the store is out of every event's reach,
    and its reference is never put back. *)
Lemma detached_step e s r :
  refs_valid s -> (r < length (heap s))%nat -> r ∉ mockTasks s ->
  (r ∉ mockTasks (step e s)) /\ heap (step e s) !! r = heap s !! r.
Proof.
  intros Hv Hr Hout.
  destruct e as [ms| |w f z|i d|n|now]; simpl; [done| | | | |done].
  - destruct (pop_earliest (timers s)) as [[tm rest]|]; [|done].
    case_decide; [|done]. rewrite run_callback_eq. simpl. split; [done|].
    unfold update_task.
    destruct (find_task _ _ _) as [[r0 t0]|] eqn:Hfind; [|done].
    apply find_task_Some in Hfind as (Hin & _).
    rewrite list_lookup_alter_ne; [done|]. intros ->. by apply Hout.
  - split.
    + rewrite not_elem_of_app, list_elem_of_singleton. split; [done|lia].
    + by rewrite lookup_app_l.
  - unfold finalizeTask. destruct (find_task _ _ _) as [[? ?]|]; simpl; [|done].
    split; [|done]. intros Hin. apply list_elem_of_filter in Hin as [_ Hin].
    by apply Hout.
  - destruct (timers s !! n) as [tm|]; [|done].
    case_decide; [|done]. rewrite run_callback_eq. simpl. split; [done|].
    unfold update_task.
    destruct (find_task _ _ _) as [[r0 t0]|] eqn:Hfind; [|done].
    apply find_task_Some in Hfind as (Hin & _).
    rewrite list_lookup_alter_ne; [done|]. intros ->. by apply Hout.
Qed.

Lemma detached_run es s r :
  refs_valid s -> (r < length (heap s))%nat -> r ∉ mockTasks s ->
  (r ∉ mockTasks (run es s)) /\ heap (run es s) !! r = heap s !! r.
Proof.
  revert s. induction es as [|e es IH]; intros s Hv Hr Hout; [done|]. simpl.
  destruct (detached_step e _ _ Hv Hr Hout) as [Hout' Heq].
  pose proof (step_heap_length e s).
  destruct (IH (step e s)) as [? ?]; [by apply refs_valid_step|lia|done|].
  split; [done|]. congruence.
Qed.

(** X3. Once [finalizeTask] has returned, the task object it found is
    out of reach for good: whatever follows, the object stays exactly as
    it was and its reference never comes back into the store. *)
Theorem finalized_task_is_frozen i d s m s' r t es :
  refs_valid s ->
  getTask i s = Some (r, t) ->
  finalizeTask i d s = Returned m s' ->
  heap (run es s') !! r = Some t /\ r ∉ mockTasks (run es s').
Proof.
  intros Hv Hget Hfin.
  pose proof (refs_valid_step (CallFinalizeTask i d) s Hv) as Hv'.
  simpl in Hv'. rewrite Hfin in Hv'. simpl in Hv'.
  apply finalizeTask_Returned in Hfin as (_ & _ & _ & _ & Hh & Hrefs & _).
  apply find_task_Some in Hget as (Hin & Ht & Hid).
  destruct (detached_run es s' r Hv') as [Hout Heq].
  - rewrite Hh. by eapply lookup_lt_Some.
  - rewrite Hrefs. intros Hr. apply list_elem_of_filter in Hr as [Hdiff _].
    apply Hdiff. by rewrite Ht, <- Hid.
  - split; [|done]. by rewrite Heq, Hh.
Qed.

(** ** Timers *)

Lemma pop_earliest_None ts : pop_earliest ts = None -> ts = [].
Proof.
  destruct ts as [|t ts]; [done|]. simpl.
  destruct (pop_earliest ts) as [[? ?]|]; [case_decide|]; done.
Qed.

(** ** Statuses that occur *)

(** X4. In every state the module can reach after it is loaded, in
    whatever order the host runs the callbacks, no task is [completed]
    or [failed], the progress of a task is between 0 and 100, and a task
    whose progress is 100 is [review_ready]. *)
Theorem reachable_status_and_progress now es r t :
  heap (run es (initial now)) !! r = Some t ->
  ProcessingTask.status t <> completed /\
  ProcessingTask.status t <> failed /\
  0 <= ProcessingTask.progress t <= 100 /\
  (ProcessingTask.progress t = 100 -> ProcessingTask.status t = review_ready).
Proof.
  intros Ht.
  destruct (settled_run es (initial now) (settled_initial now) r t Ht)
    as (? & ? & ? & ?).
  done.
Qed.

(** ** A task created in a quiet store runs through *)

Lemma pop_earliest_head tm rest :
  Forall (fun u => due tm <= due u) rest ->
  pop_earliest (tm :: rest) = Some (tm, rest).
Proof.
  intros Hle. simpl. destruct (pop_earliest rest) as [[u rest']|] eqn:Hpop.
  - rewrite decide_True; [done|]. rewrite Forall_forall in Hle. apply Hle.
    rewrite (pop_earliest_perm _ _ _ Hpop). by left.
  - by rewrite (pop_earliest_None _ Hpop).
Qed.

Lemma step_timer_on_last h x refs meetings tm rest now :
  Forall (fun r => (r < length h)%nat) refs ->
  find_task h (ProcessingTask.id x) refs = None ->
  Forall (fun u => due tm <= due u) rest ->
  due tm <= now ->
  target (callback tm) = ProcessingTask.id x ->
  step RunTimer (mkState (h ++ [x]) (refs ++ [length h]) meetings (tm :: rest) now) =
  mkState (h ++ [(callback_body now (callback tm)).2 x]) (refs ++ [length h])
    meetings rest now.
Proof.
  intros Hv Hnone Hle Hdue Htgt. unfold step. cbn [timers clock heap mockTasks mockMeetings].
  rewrite pop_earliest_head by done. rewrite decide_True by done.
  rewrite run_callback_eq. cbn [timers clock heap mockTasks mockMeetings].
  unfold update_task. rewrite Htgt, find_task_snoc, Hnone by done.
  rewrite decide_True by done.
  rewrite alter_app_r_alt, Nat.sub_diag by done. done.
Qed.

(** X5. The pipeline the module simulates, end to end.  Take a store
    with no timer pending and no task under the id of the current
    instant.  A task created now, once fifteen seconds have passed and
    its three callbacks have run, is [review_ready] with progress 100 and
    a log of seven lines; no timer is left, and its id finds it. *)
Theorem created_task_runs_to_review w f z ms s :
  refs_valid s ->
  timers s = [] ->
  getTask (task_id (clock s)) s = None ->
  15000 <= Z.of_N ms ->
  exists t,
    heap (run [CallCreateTask w f z; Elapse ms; RunTimer; RunTimer; RunTimer] s)
      !! length (heap s) = Some t /\
    ProcessingTask.status t = review_ready /\
    ProcessingTask.progress t = 100 /\
    length (ProcessingTask.logs t) = 7%nat /\
    timers (run [CallCreateTask w f z; Elapse ms; RunTimer; RunTimer; RunTimer] s) = [] /\
    getTask (task_id (clock s))
      (run [CallCreateTask w f z; Elapse ms; RunTimer; RunTimer; RunTimer] s)
      = Some (length (heap s), t).
Proof.
  destruct s as [h refs meetings tms c]. unfold refs_valid, getTask.
  cbn [heap mockTasks timers clock]. intros Hv -> Hnone Hms.
  unfold run. cbn [foldl].
  change (step (Elapse ms) (step (CallCreateTask w f z) (mkState h refs meetings [] c)))
    with (mkState
            (h ++ [ProcessingTask.mk (task_id c) w f z queued 0
                     [log_line c "File uploaded successfully"] (toISOString c)])
            (refs ++ [length h]) meetings
            [ mkTimer (c + 2000) (StartTranscription (task_id c));
              mkTimer (c + 8000) (HalfTranscribed (task_id c));
              mkTimer (c + 15000) (ReadyForReview (task_id c)) ]
            (c + Z.of_N ms)).
  rewrite step_timer_on_last; cbn [due callback target ProcessingTask.id]; try done;
    [|repeat constructor; cbn [due]; lia|lia].
  rewrite step_timer_on_last;
    cbn [due callback target ProcessingTask.id callback_body snd push_log set_progress
         set_status]; try done;
    [|repeat constructor; cbn [due]; lia|lia].
  rewrite step_timer_on_last;
    cbn [due callback target ProcessingTask.id callback_body snd push_log set_progress
         set_status]; try done; [|lia].
  cbn [heap mockTasks timers].
  eexists. split; [by rewrite list_lookup_middle|].
  do 4 (split; [done|]).
  rewrite find_task_snoc, Hnone by done.
  cbn [ProcessingTask.id]. by rewrite decide_True.
Qed.

(** ** Uploads and meetings through the facades *)

Lemma createMeetingFromUpload_taskId w f z s :
  (createMeetingFromUpload w f z s).1 = task_id (clock s) /\
  (createMeetingFromUpload w f z s).2 = (createTask w f z s).2.
Proof. unfold createMeetingFromUpload. by rewrite createTask_heap. Qed.

(** X6. After an upload through [meetingsApi.create], the response
    carries an empty meeting id and the task id [task_<now>];
    [tasksApi.get] with that id returns a task carrying it (never
    'Task not found'), and the task just created is listed under the
    workspace it was uploaded to. *)
Theorem upload_is_retrievable w f z s :
  refs_valid s ->
  UploadMeetingResponse.meetingId (meetingsApi_create w f z s).1 = "" /\
  UploadMeetingResponse.taskId (meetingsApi_create w f z s).1 = task_id (clock s) /\
  length (heap s) ∈ tasksApi_list w (meetingsApi_create w f z s).2 /\
  exists r t,
    tasksApi_get (UploadMeetingResponse.taskId (meetingsApi_create w f z s).1)
      (meetingsApi_create w f z s).2 = Returned (r, t) (meetingsApi_create w f z s).2 /\
    ProcessingTask.id t = task_id (clock s).
Proof.
  intros Hv. unfold meetingsApi_create. cbn [fst snd UploadMeetingResponse.meetingId
    UploadMeetingResponse.taskId].
  destruct (createMeetingFromUpload_taskId w f z s) as [-> ->].
  split; [done|]. split; [done|]. split.
  - unfold tasksApi_list, getTasks. simpl. apply list_elem_of_filter. split.
    + unfold in_workspace. by rewrite list_lookup_middle.
    + apply elem_of_app. right. by left.
  - unfold tasksApi_get, getTask. simpl. rewrite find_task_snoc by exact Hv.
    destruct (find_task (heap s) _ (mockTasks s)) as [[r t]|] eqn:Hold.
    + exists r, t. split; [done|]. by apply find_task_Some in Hold as (_ & _ & ?).
    + simpl. rewrite decide_True by done. by eexists _, _.
Qed.

(** X7. What [createTask] leaves alone.  The listing of the task's own
    workspace gains the new task at its end; the listing of every other
    workspace, every listing of meetings and every task object that was
    there before are as they were. *)
Theorem createTask_frame w f z s :
  refs_valid s ->
  getTasks w (createTask w f z s).2 = getTasks w s ++ [(createTask w f z s).1] /\
  (forall w', w' <> w -> getTasks w' (createTask w f z s).2 = getTasks w' s) /\
  (forall w', getMeetings w' (createTask w f z s).2 = getMeetings w' s) /\
  (forall r a, heap s !! r = Some a -> heap (createTask w f z s).2 !! r = Some a).
Proof.
  intros Hv.
  assert (forall w', filter (in_workspace (heap (createTask w f z s).2) w') (mockTasks s)
                     = filter (in_workspace (heap s) w') (mockTasks s)) as Hold.
  { intros w'. apply filter_agree. eapply Forall_impl; [exact Hv|].
    intros r Hr. unfold in_workspace. simpl. by rewrite lookup_app_l. }
  unfold getTasks. split; [|split; [|split]].
  - cbn [mockTasks createTask snd]. rewrite filter_app, Hold. f_equal.
    rewrite filter_cons, decide_True; [done|].
    unfold in_workspace. simpl. by rewrite list_lookup_middle.
  - intros w' Hne. cbn [mockTasks createTask snd]. rewrite filter_app, Hold.
    rewrite filter_cons, decide_False; [by rewrite app_nil_r|].
    unfold in_workspace. simpl. rewrite list_lookup_middle by done. simpl. congruence.
  - done.
  - intros r a Ha. simpl. rewrite lookup_app_l; [done|]. by eapply lookup_lt_Some.
Qed.

(** X8. What [finalizeTask] does to the listings.  Each workspace's
    listing of tasks loses the tasks carrying the id and nothing else;
    the listing of meetings of the found task's workspace gains the new
    meeting at its end, and no other listing of meetings changes. *)
Theorem finalizeTask_frame i d s m s' r t :
  getTask i s = Some (r, t) ->
  finalizeTask i d s = Returned m s' ->
  (forall w, getTasks w s' = filter (id_differs (heap s) i) (getTasks w s)) /\
  (exists mt, Meeting.id mt = m /\
     getMeetings (ProcessingTask.workspaceId t) s' =
       getMeetings (ProcessingTask.workspaceId t) s ++ [mt]) /\
  (forall w, w <> ProcessingTask.workspaceId t -> getMeetings w s' = getMeetings w s).
Proof.
  intros Hget Hfin.
  apply finalizeTask_Returned in Hfin
    as (r0 & t0 & mt & Hget' & Hh & Hrefs & Hm & _ & _ & Hid & Hws & _).
  assert (t0 = t) as -> by congruence.
  unfold getTasks, getMeetings. rewrite Hh, Hrefs, Hm. split; [|split].
  - intros w. rewrite !list_filter_filter. apply list_filter_iff. tauto.
  - exists mt. split; [done|]. rewrite filter_app. f_equal.
    by rewrite filter_cons, decide_True.
  - intros w Hne. rewrite filter_app, filter_cons, decide_False by congruence.
    by rewrite app_nil_r.
Qed.

Lemma getMeeting_Some i s mt :
  getMeeting i s = Some mt -> Meeting.id mt = i /\ mt ∈ mockMeetings s.
Proof.
  unfold getMeeting. destruct (list_find _ _) as [[k x]|] eqn:Hfind; [|done].
  intros [= <-]. apply list_find_Some in Hfind as (Hk & Hid & _).
  split; [done|]. by eapply list_elem_of_lookup_2.
Qed.

(** X9. After [finalizeTask] has returned an id, [meetingsApi.get]
    with that id returns a meeting carrying it (never
    'Meeting not found').  It is the meeting just made, with the title,
    template and tags that were passed, unless an earlier meeting already
    carried the id: then that earlier one is returned. *)
Theorem finalize_then_get_meeting i d s m s' :
  finalizeTask i d s = Returned m s' ->
  exists mt,
    meetingsApi_get m s' = Returned mt s' /\
    Meeting.id mt = m /\
    (forall old, getMeeting m s = Some old -> mt = old) /\
    (getMeeting m s = None ->
       Meeting.title mt = FinalizeData.title d /\
       Meeting.template mt = Some (FinalizeData.template d) /\
       Meeting.tags mt = Some (FinalizeData.tags d) /\
       Meeting.status mt = meeting_completed).
Proof.
  intros Hfin.
  apply finalizeTask_Returned in Hfin
    as (r & t & mt & _ & _ & _ & Hm & _ & _ & Hid & _ & Htitle & Htpl & Htags & Hst).
  unfold meetingsApi_get, getMeeting. rewrite Hm.
  destruct (list_find (fun x => Meeting.id x = m) (mockMeetings s))
    as [[k old]|] eqn:Hfind.
  - rewrite (list_find_app_l _ _ _ _ _ Hfind). simpl. exists old.
    apply list_find_Some in Hfind as (_ & Hold & _).
    split; [done|]. split; [done|]. split; [|done]. by intros ? [= <-].
  - rewrite (list_find_app_r _ _ _ Hfind). simpl. rewrite decide_True by done.
    simpl. exists mt. split; [done|]. split; [done|]. split; [done|]. done.
Qed.

(** ** What only [finalizeTask] does *)

(** X16. Tasks leave the store through [finalizeTask] only: along a run
    without such a call, whatever timers fire and however much time
    passes, the store keeps every task in its place and only gains new
    ones at its end. *)
Theorem store_shrinks_only_by_finalize es s :
  forallb (fun e => negb (is_finalize e)) es = true ->
  mockTasks s `prefix_of` mockTasks (run es s).
Proof.
  revert s. induction es as [|e es IH]; intros s Hes; [done|]. simpl in *.
  apply andb_prop in Hes as [He Hes]. etrans; [|by apply IH].
  destruct e as [ms| |w f z|i d|n|now]; simpl;
    [done| |by apply prefix_app_r|done| |done].
  - destruct (pop_earliest (timers s)) as [[tm rest]|]; [|done].
    case_decide; [|done]. by rewrite run_callback_eq.
  - destruct (timers s !! n) as [tm|]; [|done].
    case_decide; [|done]. by rewrite run_callback_eq.
Qed.

(** X17. A task that [getTasks] lists can be fetched: [tasksApi.get] with
    the id it carries returns a stored task carrying that id, and never
    throws. *)
Theorem listed_task_can_be_fetched w s r t :
  r ∈ getTasks w s -> heap s !! r = Some t ->
  exists r' t',
    tasksApi_get (ProcessingTask.id t) s = Returned (r', t') s /\
    ProcessingTask.id t' = ProcessingTask.id t /\
    r' ∈ mockTasks s.
Proof.
  intros Hin Ht. unfold getTasks in Hin. apply list_elem_of_filter in Hin as [_ Hin].
  unfold tasksApi_get, getTask.
  destruct (find_task (heap s) (ProcessingTask.id t) (mockTasks s)) as [[r' t']|] eqn:Hfind.
  - exists r', t'. apply find_task_Some in Hfind as (? & _ & ?). done.
  - apply find_task_None in Hfind. rewrite Forall_forall in Hfind.
    destruct (Hfind r Hin). by rewrite Ht.
Qed.

End MockDataService.

(** ** The module at work on the sample store

    The module is loaded at [sample_now] on the plain host; the store
    holds the two sample tasks, [task_1] ([review_ready]) and [task_2]
    ([processing]). *)

(** C1 fails as stated: [task_2] is [processing], not [review_ready], and
    [finalizeTask] returns all the same.  Afterwards the task is not
    [completed] but gone, and the second call is thrown out with
    'Task not found'. *)
Lemma finalizeTask_accepts_processing_task :
  exists t m s',
    getTask "task_2" (initial plain_time sample_now) = Some (1%nat, t) /\
    ProcessingTask.status t = processing /\
    finalizeTask plain_time "task_2" sample_data (initial plain_time sample_now)
      = Returned m s' /\
    getTask "task_2" s' = None /\
    finalizeTask plain_time "task_2" sample_data s' = Thrown "Task not found" s'.
Proof.
  do 3 eexists.
  split; [vm_compute; reflexivity|].
  split; [reflexivity|].
  split; [vm_compute; reflexivity|].
  split; vm_compute; reflexivity.
Qed.

Lemma finalizeTask_twice_witness :
  (exists t, getTask "task_1" (initial plain_time sample_now) = Some (0%nat, t)) /\
  exists m s',
    finalizeTask plain_time "task_1" sample_data (initial plain_time sample_now)
      = Returned m s' /\
    length (mockMeetings s') = S (length (mockMeetings (initial plain_time sample_now))) /\
    getTask "task_1" s' = None /\
    finalizeTask plain_time "task_1" sample_data s' = Thrown "Task not found" s'.
Proof.
  split; [eexists; vm_compute; reflexivity|].
  eapply (finalizeTask_twice plain_time "task_1" sample_data sample_data
            (initial plain_time sample_now) 0%nat).
  vm_compute. reflexivity.
Defined.



(** C3 fails as stated: [task_1] is [review_ready]; after finalizing it,
    no lookup finds it, and the object's status is still [review_ready]. *)
Lemma finalized_task_is_not_retained :
  exists m s',
    finalizeTask plain_time "task_1" sample_data (initial plain_time sample_now)
      = Returned m s' /\
    getTask "task_1" s' = None /\
    getTasks "ws_1" s' = [1%nat] /\
    ProcessingTask.status <$> heap s' !! 0%nat = Some review_ready.
Proof.
  do 2 eexists. split; [vm_compute; reflexivity|].
  repeat split; vm_compute; reflexivity.
Qed.

Lemma finalizeTask_removes_task_witness :
  exists m s',
    finalizeTask plain_time "task_1" sample_data (initial plain_time sample_now)
      = Returned m s' /\
    getTask "task_1" s' = None /\
    tasksApi_get "task_1" s' = Thrown "Task not found" s' /\
    (forall w r, r ∈ getTasks w s' -> id_differs (heap s') "task_1" r) /\
    heap s' = heap (initial plain_time sample_now) /\
    exists mt,
      mockMeetings s' = mockMeetings (initial plain_time sample_now) ++ [mt] /\
      Meeting.id mt = m /\ Meeting.status mt = meeting_completed.
Proof.
  do 2 eexists. split; [vm_compute; reflexivity|].
  apply (finalizeTask_removes_task plain_time "task_1" sample_data
           (initial plain_time sample_now)).
  vm_compute. reflexivity.
Defined.

(** C4 fails as stated: the one entry of a new task's log reads
    'File uploaded successfully'; it says nothing of queueing. *)
Lemma upload_entry_does_not_mention_queued :
  exists t entry,
    heap (createTask plain_time plain_time "ws_1" "audio_1" 1
            (initial plain_time sample_now)).2 !! 2%nat = Some t /\
    ProcessingTask.logs t = [entry] /\
    entry = "[1730505600000] File uploaded successfully" /\
    mentions_queued entry = false.
Proof.
  do 2 eexists. split; [vm_compute; reflexivity|].
  split; [reflexivity|]. split; reflexivity.
Qed.

(** C5 fails as stated: an empty file name is taken like any other, and
    the task is in the store. *)
Lemma createTask_accepts_empty_filename :
  mockTasks (createTask plain_time plain_time "ws_1" "" 0
               (initial plain_time sample_now)).2 = [0%nat; 1%nat; 2%nat] /\
  (createTask plain_time plain_time "ws_1" "" 0 (initial plain_time sample_now)).1
    = 2%nat /\
  ProcessingTask.filename <$>
    heap (createTask plain_time plain_time "ws_1" "" 0
            (initial plain_time sample_now)).2 !! 2%nat = Some "".
Proof. repeat split; vm_compute; reflexivity. Qed.


Lemma logs_append_only_witness :
  exists a b,
    heap (run plain_time plain_time [CallCreateTask "ws_1" "a.m4a" 1]
            (initial plain_time sample_now)) !! 2%nat = Some a /\
    heap (run plain_time plain_time
            [Elapse 15000; RunTimer; RunTimer; RunTimer;
             CallFinalizeTask (task_id sample_now) sample_data]
            (run plain_time plain_time [CallCreateTask "ws_1" "a.m4a" 1]
               (initial plain_time sample_now))) !! 2%nat = Some b /\
    ProcessingTask.logs a `prefix_of` ProcessingTask.logs b /\
    (ProcessingTask.status a <> ProcessingTask.status b ->
     (length (ProcessingTask.logs a) < length (ProcessingTask.logs b))%nat).
Proof.
  do 2 eexists.
  split; [vm_compute; reflexivity|]. split; [vm_compute; reflexivity|].
  apply (logs_append_only plain_time plain_time
           [Elapse 15000; RunTimer; RunTimer; RunTimer;
            CallFinalizeTask (task_id sample_now) sample_data]
           (run plain_time plain_time [CallCreateTask "ws_1" "a.m4a" 1]
              (initial plain_time sample_now)) 2%nat);
    vm_compute; reflexivity.
Defined.

(** C10 at two uploads within one millisecond.  Both tasks get the id
    [task_<now>]; the second call returns reference 3, and looking up the
    id it carries finds reference 2, the task of the first call, which
    belongs to another workspace. *)
Theorem getTask_after_createTask_same_millisecond :
  let s1 := (createTask plain_time plain_time "ws_1" "a.m4a" 1
               (initial plain_time sample_now)).2 in
  let created := createTask plain_time plain_time "ws_2" "b.m4a" 2 s1 in
  exists t found,
    created.1 = 3%nat /\
    heap created.2 !! created.1 = Some t /\
    ProcessingTask.workspaceId t = "ws_2" /\
    getTask (ProcessingTask.id t) created.2 = Some (2%nat, found) /\
    ProcessingTask.workspaceId found = "ws_1" /\
    tasksApi_get (ProcessingTask.id t) created.2 = Returned (2%nat, found) created.2.
Proof.
  do 2 eexists. split; [reflexivity|].
  split; [vm_compute; reflexivity|]. split; [reflexivity|].
  split; [vm_compute; reflexivity|]. split; [reflexivity|].
  vm_compute. reflexivity.
Qed.

(** C9 at the same two uploads.  Finalizing by the shared id takes both
    tasks out of the store, the one [find] returned and the other one, and
    the meeting gets the workspace of the first. *)
Theorem finalizeTask_removes_every_task_with_the_id :
  let s2 := run plain_time plain_time
              [CallCreateTask "ws_1" "a.m4a" 1; CallCreateTask "ws_2" "b.m4a" 2]
              (initial plain_time sample_now) in
  exists m s',
    finalizeTask plain_time (task_id sample_now) sample_data s2 = Returned m s' /\
    mockTasks s2 = [0%nat; 1%nat; 2%nat; 3%nat] /\
    mockTasks s' = [0%nat; 1%nat] /\
    (Meeting.workspaceId <$> last (mockMeetings s')) = Some "ws_1" /\
    length (mockMeetings s') = S (length (mockMeetings s2)).
Proof.
  do 2 eexists. split; [vm_compute; reflexivity|].
  repeat split; vm_compute; reflexivity.
Qed.

(** ** The tasks page and the sidebar *)

Lemma still_processing_spec t :
  still_processing t =
  bool_decide (ProcessingTask.status t = processing \/ ProcessingTask.status t = queued).
Proof.
  unfold still_processing.
  destruct (ProcessingTask.status t), (bool_decide (ProcessingTask.progress t = 100));
    reflexivity.
Qed.

(** X10. The page keeps polling every three seconds exactly while the
    sidebar's count of queued and processing tasks is not zero; what
    [refetchInterval] adds about tasks at 100 percent never makes a
    difference.  Before the first fetch there is no polling. *)
Theorem polling_follows_task_count tasks :
  refetchInterval (Some tasks) =
    (if decide (0 < taskCount tasks)%nat then Some 3000 else None) /\
  refetchInterval None = None.
Proof.
  split; [|done]. unfold refetchInterval, taskCount.
  induction tasks as [|t tasks IH]; [done|]. simpl existsb.
  rewrite still_processing_spec.
  destruct (decide (ProcessingTask.status t = processing \/
                    ProcessingTask.status t = queued)) as [Ht|Ht].
  - rewrite (bool_decide_eq_true_2 _ Ht), filter_cons_True by done.
    cbn [orb length]. by rewrite decide_True by lia.
  - rewrite (bool_decide_eq_false_2 _ Ht), filter_cons_False by done. simpl.
    exact IH.
Qed.

(** X11. A task whose progress does not exceed 100 shows exactly one of
    the five status texts, and it shows 'Ready for Review' exactly when
    the page offers the review form for it. *)
Theorem status_label_is_one_text t :
  ProcessingTask.progress t <= 100 ->
  status_label t ∈
    ["Queued..."; "Processing..."; "Ready for Review"; "Completed"; "Failed"] /\
  (status_label t = "Ready for Review" <-> ready_for_review t = true).
Proof.
  intros Hp. unfold status_label, ready_for_review.
  destruct (ProcessingTask.status t) eqn:Hst;
    repeat (case_decide || case_bool_decide); simpl;
    try (exfalso; intuition (congruence || lia));
    (split; [repeat constructor|split; done]).
Qed.

Lemma tag_step_distinct e form :
  NoDup (reviewTags form) -> "" ∉ reviewTags form ->
  NoDup (reviewTags (tag_step e form)) /\ "" ∉ reviewTags (tag_step e form).
Proof.
  intros Hnd Hne. destruct e as [v| |t]; simpl; [done| |].
  - unfold addTag. case_decide as Hadd; [|done]. destruct Hadd as [Hn Hfresh]. simpl.
    split.
    + apply NoDup_app. split; [done|]. split; [|apply NoDup_singleton].
      intros x Hx Hx'. apply list_elem_of_singleton in Hx'. by subst.
    + rewrite not_elem_of_app, list_elem_of_singleton. by split.
  - split; [by apply NoDup_filter|].
    intros Hin. by apply list_elem_of_filter in Hin as [_ ?].
Qed.

(** X12. Whatever is typed, added and removed in the tag editor, the
    tags stay pairwise distinct and none of them is empty, provided they
    were so to begin with (as the two tags are that [handleTaskClick]
    puts there). *)
Theorem tags_stay_distinct es form :
  NoDup (reviewTags form) -> "" ∉ reviewTags form ->
  NoDup (reviewTags (tag_run es form)) /\ "" ∉ reviewTags (tag_run es form).
Proof.
  unfold tag_run. revert form. induction es as [|e es IH]; intros form Hnd Hne; [done|].
  simpl. destruct (tag_step_distinct e form Hnd Hne). by apply IH.
Qed.

Lemma filter_keeps_all {A} (P : A -> Prop) `{!forall x, Decision (P x)} (l : list A) :
  Forall P l -> filter P l = l.
Proof.
  induction 1 as [|x l Hx _ IH]; [done|]. by rewrite filter_cons, decide_True, IH.
Qed.

(** X13. Adding a tag that is not empty and not yet there, and removing
    it again, gives back the tags as they were. *)
Theorem removeTag_undoes_addTag tags t :
  t <> "" -> t ∉ tags ->
  reviewTags (addTag (mkReviewForm tags t)) = tags ++ [t] /\
  reviewTags (removeTag t (addTag (mkReviewForm tags t))) = tags.
Proof.
  intros Hne Hfresh. unfold addTag. simpl. rewrite decide_True by done. simpl.
  split; [done|]. rewrite filter_app, filter_cons, decide_False by naive_solver.
  rewrite filter_nil, app_nil_r. apply filter_keeps_all, Forall_forall.
  intros x Hx ->. by apply Hfresh.
Qed.

(** X14. Pressing Add twice in a row adds what pressing it once adds:
    the first press empties the input, and on an empty input, or on a
    tag that is already there, Add does nothing. *)
Theorem addTag_twice form :
  addTag (addTag form) = addTag form.
Proof.
  unfold addTag at 2 3.
  destruct (decide (newTag form <> "" /\ newTag form ∉ reviewTags form)) as [Hadd|Hadd].
  - reflexivity.
  - unfold addTag. by rewrite decide_False.
Qed.

Lemma all_ext_chars_dot a b : all_ext_chars (a +:+ String "."%char b) = false.
Proof.
  induction a as [|c a IH]; simpl.
  - reflexivity.
  - by rewrite IH, andb_false_r.
Qed.

(** X15. For a file name that ends in a dot and an extension (one
    character or more, none of them a dot or a slash), the title the
    review form proposes is the part before that dot, with every
    underscore turned into a space. *)
Theorem review_title_drops_extension base ext :
  ext <> "" -> all_ext_chars ext = true ->
  review_title (base +:+ String "."%char ext) = underscores_to_spaces base.
Proof.
  intros Hne Hext. unfold review_title. f_equal.
  induction base as [|c base IH].
  - simpl. rewrite (bool_decide_eq_false_2 (ext = "")) by done. simpl.
    by rewrite Hext.
  - change (String c base +:+ String "."%char ext)
      with (String c (base +:+ String "."%char ext)).
    cbn [strip_extension]. unfold extension_here at 1.
    rewrite all_ext_chars_dot, andb_false_r. by rewrite IH.
Qed.

(** ** The further properties at work on the sample store *)

Lemma task_identity_is_immutable_witness :
  exists a b,
    heap (run plain_time plain_time [CallCreateTask "ws_1" "a.m4a" 1]
            (initial plain_time sample_now)) !! 2%nat = Some a /\
    heap (run plain_time plain_time [Elapse 15000; RunTimer; RunTimer; RunTimer]
            (run plain_time plain_time [CallCreateTask "ws_1" "a.m4a" 1]
               (initial plain_time sample_now))) !! 2%nat = Some b /\
    ProcessingTask.id b = ProcessingTask.id a /\
    ProcessingTask.workspaceId b = ProcessingTask.workspaceId a /\
    ProcessingTask.filename b = ProcessingTask.filename a /\
    ProcessingTask.fileSize b = ProcessingTask.fileSize a /\
    ProcessingTask.startTime b = ProcessingTask.startTime a.
Proof.
  do 2 eexists.
  split; [vm_compute; reflexivity|]. split; [vm_compute; reflexivity|].
  apply (task_identity_is_immutable plain_time plain_time
           [Elapse 15000; RunTimer; RunTimer; RunTimer]
           (run plain_time plain_time [CallCreateTask "ws_1" "a.m4a" 1]
              (initial plain_time sample_now)) 2%nat);
    vm_compute; reflexivity.
Defined.

Lemma sample_refs_valid : refs_valid (initial plain_time sample_now).
Proof. unfold refs_valid. simpl. repeat constructor. Defined.

Lemma finalized_task_is_frozen_witness :
  refs_valid (initial plain_time sample_now) /\
  exists t m s',
    getTask "task_1" (initial plain_time sample_now) = Some (0%nat, t) /\
    finalizeTask plain_time "task_1" sample_data (initial plain_time sample_now)
      = Returned m s' /\
    heap (run plain_time plain_time
            [CallCreateTask "ws_1" "a.m4a" 1; Elapse 15000; RunTimer; RunTimer] s')
      !! 0%nat = Some t /\
    0%nat ∉ mockTasks (run plain_time plain_time
            [CallCreateTask "ws_1" "a.m4a" 1; Elapse 15000; RunTimer; RunTimer] s').
Proof.
  split; [exact sample_refs_valid|]. do 3 eexists.
  split; [vm_compute; reflexivity|]. split; [vm_compute; reflexivity|].
  eapply (finalized_task_is_frozen plain_time plain_time "task_1" sample_data
            (initial plain_time sample_now));
    [exact sample_refs_valid|vm_compute; reflexivity|vm_compute; reflexivity].
Defined.

Lemma reachable_status_and_progress_witness :
  exists t,
    heap (run plain_time plain_time
            [ CallCreateTask "ws_1" "a.m4a" 1; Elapse 15000;
              RunTimerAt 2; RunTimerAt 1 ]
            (initial plain_time sample_now)) !! 2%nat = Some t /\
    ProcessingTask.status t <> completed /\
    ProcessingTask.status t <> failed /\
    0 <= ProcessingTask.progress t <= 100 /\
    (ProcessingTask.progress t = 100 -> ProcessingTask.status t = review_ready).
Proof.
  eexists. split; [vm_compute; reflexivity|].
  apply (reachable_status_and_progress plain_time plain_time sample_now
           [ CallCreateTask "ws_1" "a.m4a" 1; Elapse 15000;
             RunTimerAt 2; RunTimerAt 1 ] 2%nat).
  vm_compute. reflexivity.
Defined.

Lemma created_task_runs_to_review_witness :
  refs_valid (initial plain_time sample_now) /\
  timers (initial plain_time sample_now) = [] /\
  getTask (task_id (clock (initial plain_time sample_now)))
    (initial plain_time sample_now) = None /\
  15000 <= Z.of_N 15000 /\
  exists t,
    heap (run plain_time plain_time
            [CallCreateTask "ws_1" "a.m4a" 1; Elapse 15000; RunTimer; RunTimer; RunTimer]
            (initial plain_time sample_now))
      !! length (heap (initial plain_time sample_now)) = Some t /\
    ProcessingTask.status t = review_ready /\
    ProcessingTask.progress t = 100 /\
    length (ProcessingTask.logs t) = 7%nat /\
    timers (run plain_time plain_time
              [CallCreateTask "ws_1" "a.m4a" 1; Elapse 15000; RunTimer; RunTimer; RunTimer]
              (initial plain_time sample_now)) = [] /\
    getTask (task_id (clock (initial plain_time sample_now)))
      (run plain_time plain_time
         [CallCreateTask "ws_1" "a.m4a" 1; Elapse 15000; RunTimer; RunTimer; RunTimer]
         (initial plain_time sample_now))
      = Some (length (heap (initial plain_time sample_now)), t).
Proof.
  split; [exact sample_refs_valid|]. split; [reflexivity|].
  split; [vm_compute; reflexivity|]. split; [vm_compute; discriminate|].
  apply (created_task_runs_to_review plain_time plain_time "ws_1" "a.m4a" 1 15000
           (initial plain_time sample_now));
    [exact sample_refs_valid|reflexivity|vm_compute; reflexivity
    |vm_compute; discriminate].
Defined.

Lemma upload_is_retrievable_witness :
  refs_valid (initial plain_time sample_now) /\
  UploadMeetingResponse.taskId
    (meetingsApi_create plain_time plain_time "ws_2" "b.m4a" 2
       (initial plain_time sample_now)).1 = task_id sample_now /\
  2%nat ∈ tasksApi_list "ws_2"
    (meetingsApi_create plain_time plain_time "ws_2" "b.m4a" 2
       (initial plain_time sample_now)).2.
Proof.
  split; [exact sample_refs_valid|].
  pose proof (upload_is_retrievable plain_time plain_time "ws_2" "b.m4a" 2
                (initial plain_time sample_now) sample_refs_valid)
    as (_ & Hid & Hin & _).
  split; [exact Hid|exact Hin].
Defined.

Lemma createTask_frame_witness :
  refs_valid (initial plain_time sample_now) /\
  getTasks "ws_1" (createTask plain_time plain_time "ws_1" "a.m4a" 1
                     (initial plain_time sample_now)).2
    = getTasks "ws_1" (initial plain_time sample_now) ++ [2%nat] /\
  getTasks "ws_2" (createTask plain_time plain_time "ws_1" "a.m4a" 1
                     (initial plain_time sample_now)).2
    = getTasks "ws_2" (initial plain_time sample_now).
Proof.
  split; [exact sample_refs_valid|].
  pose proof (createTask_frame plain_time plain_time "ws_1" "a.m4a" 1
                (initial plain_time sample_now) sample_refs_valid)
    as (Hown & Hother & _).
  split; [exact Hown|]. apply Hother. discriminate.
Defined.

Lemma finalizeTask_frame_witness :
  exists t m s',
    getTask "task_1" (initial plain_time sample_now) = Some (0%nat, t) /\
    finalizeTask plain_time "task_1" sample_data (initial plain_time sample_now)
      = Returned m s' /\
    getTasks "ws_1" s' =
      filter (id_differs (heap (initial plain_time sample_now)) "task_1")
        (getTasks "ws_1" (initial plain_time sample_now)) /\
    getMeetings "ws_2" s' = getMeetings "ws_2" (initial plain_time sample_now).
Proof.
  do 3 eexists.
  split; [vm_compute; reflexivity|]. split; [vm_compute; reflexivity|].
  match goal with
  | |- context [getTasks _ ?s' = _] =>
      pose proof (finalizeTask_frame plain_time "task_1" sample_data
                    (initial plain_time sample_now) _ s' 0%nat _
                    ltac:(vm_compute; reflexivity) ltac:(vm_compute; reflexivity))
        as (Htasks & _ & Hmeetings)
  end.
  split; [apply Htasks|]. apply Hmeetings. discriminate.
Defined.

Lemma finalize_then_get_meeting_witness :
  exists m s' mt,
    finalizeTask plain_time "task_1" sample_data (initial plain_time sample_now)
      = Returned m s' /\
    meetingsApi_get m s' = Returned mt s' /\
    Meeting.id mt = m.
Proof.
  do 2 eexists.
  match goal with
  | |- exists mt, finalizeTask _ _ _ _ = Returned ?m ?s' /\ _ =>
      assert (finalizeTask plain_time "task_1" sample_data
                (initial plain_time sample_now) = Returned m s') as Hfin
        by (vm_compute; reflexivity)
  end.
  destruct (finalize_then_get_meeting plain_time _ _ _ _ _ Hfin)
    as (mt & Hget & Hid & _).
  exists mt. split; [exact Hfin|]. split; [exact Hget|exact Hid].
Defined.

Lemma status_label_is_one_text_witness :
  ProcessingTask.progress
    (ProcessingTask.mk "task_2" "ws_1" "Weekly_Sync_Meeting.m4a" 29360128
       processing 65 [] "") <= 100 /\
  status_label
    (ProcessingTask.mk "task_2" "ws_1" "Weekly_Sync_Meeting.m4a" 29360128
       processing 65 [] "")
    ∈ ["Queued..."; "Processing..."; "Ready for Review"; "Completed"; "Failed"].
Proof.
  split; [vm_compute; discriminate|].
  apply (status_label_is_one_text
           (ProcessingTask.mk "task_2" "ws_1" "Weekly_Sync_Meeting.m4a" 29360128
              processing 65 [] "")).
  vm_compute. discriminate.
Defined.

Lemma tags_stay_distinct_witness :
  NoDup ["Internal"; "Project Alpha"] /\
  ("" ∉ ["Internal"; "Project Alpha"]) /\
  NoDup (reviewTags
           (tag_run [TypeNewTag "Urgent"; PressAdd; PressAdd; PressRemove "Internal"]
              (mkReviewForm ["Internal"; "Project Alpha"] ""))).
Proof.
  assert (NoDup ["Internal"; "Project Alpha"]) as Hnd
    by (apply (bool_decide_unpack _); vm_compute; exact I).
  assert ("" ∉ ["Internal"; "Project Alpha"]) as Hne
    by (apply (bool_decide_unpack _); vm_compute; exact I).
  split; [exact Hnd|]. split; [exact Hne|].
  apply (tags_stay_distinct
           [TypeNewTag "Urgent"; PressAdd; PressAdd; PressRemove "Internal"]
           (mkReviewForm ["Internal"; "Project Alpha"] "") Hnd Hne).
Defined.

Lemma removeTag_undoes_addTag_witness :
  "Urgent" <> "" /\
  ("Urgent" ∉ ["Internal"; "Project Alpha"]) /\
  reviewTags (removeTag "Urgent"
                (addTag (mkReviewForm ["Internal"; "Project Alpha"] "Urgent")))
    = ["Internal"; "Project Alpha"].
Proof.
  assert ("Urgent" ∉ ["Internal"; "Project Alpha"]) as Hfresh
    by (apply (bool_decide_unpack _); vm_compute; exact I).
  split; [discriminate|]. split; [exact Hfresh|].
  apply (removeTag_undoes_addTag ["Internal"; "Project Alpha"] "Urgent");
    [discriminate|exact Hfresh].
Defined.

Lemma review_title_drops_extension_witness :
  "m4a" <> "" /\
  all_ext_chars "m4a" = true /\
  review_title ("Q3_Product_Review_2024" +:+ String "."%char "m4a")
    = underscores_to_spaces "Q3_Product_Review_2024".
Proof.
  split; [discriminate|]. split; [reflexivity|].
  apply (review_title_drops_extension "Q3_Product_Review_2024" "m4a");
    [discriminate|reflexivity].
Defined.

Lemma store_shrinks_only_by_finalize_witness :
  forallb (fun e => negb (is_finalize e))
    [CallCreateTask "ws_1" "a.m4a" 1; Elapse 2000; RunTimer] = true /\
  mockTasks (initial plain_time sample_now) `prefix_of`
    mockTasks (run plain_time plain_time
                 [CallCreateTask "ws_1" "a.m4a" 1; Elapse 2000; RunTimer]
                 (initial plain_time sample_now)).
Proof.
  split; [reflexivity|].
  apply (store_shrinks_only_by_finalize plain_time plain_time
           [CallCreateTask "ws_1" "a.m4a" 1; Elapse 2000; RunTimer]
           (initial plain_time sample_now)).
  reflexivity.
Defined.

Lemma listed_task_can_be_fetched_witness :
  1%nat ∈ getTasks "ws_1" (initial plain_time sample_now) /\
  exists t r' t',
    heap (initial plain_time sample_now) !! 1%nat = Some t /\
    tasksApi_get (ProcessingTask.id t) (initial plain_time sample_now)
      = Returned (r', t') (initial plain_time sample_now) /\
    ProcessingTask.id t' = ProcessingTask.id t.
Proof.
  assert (1%nat ∈ getTasks "ws_1" (initial plain_time sample_now)) as Hin
    by (apply (bool_decide_unpack _); vm_compute; exact I).
  split; [exact Hin|]. eexists.
  destruct (listed_task_can_be_fetched "ws_1" (initial plain_time sample_now) 1%nat _
              Hin eq_refl) as (r' & t' & Hget & Hid & _).
  exists r', t'. split; [reflexivity|]. split; [exact Hget|exact Hid].
Defined.
